(** * FamilyHub secure vault: PIN credentials, lockout tracking and
      PIN-gated secret access

    A shallow embedding of [src/lib/secure-vault.ts].  The module is a thin
    policy layer over an Azure Key Vault [SecretClient]; every exported
    function is an [async] function that talks to the vault, reads the
    clock, draws random bytes and may throw.  The embedding threads all of
    that through an explicit [world] and a small state-and-exception monad.

    Strings are sequences of 8-bit code units (the Latin-1 range of
    JavaScript's UTF-16 strings); numbers are mathematical integers, which
    is exact for the counters and millisecond timestamps handled here. *)

From Stdlib Require Import ZArith String Ascii List Lia Bool Strings.Byte.
From stdpp Require Import base option gmap strings list pretty countable.

Set Warnings "-register-all".
Local Open Scope string_scope.
Local Open Scope Z_scope.

(** ** Module constants *)

Definition MAX_PIN_ATTEMPTS : Z := 3.
Definition LOCKOUT_DURATION_MS : Z := 15 * 60 * 1000.

(** ** Secret names *)

Module Char.

Definition between (lo hi c : ascii) : bool :=
  ((nat_of_ascii lo <=? nat_of_ascii c) && (nat_of_ascii c <=? nat_of_ascii hi))%nat.

(** One code unit of [String.prototype.toLowerCase] on the Latin-1 range:
    [A-Z] and the accented capitals U+00C0..U+00DE (except the
    multiplication sign U+00D7) move up by 32. *)
Definition toLowerCase (c : ascii) : ascii :=
  if between "A" "Z" c then ascii_of_nat (nat_of_ascii c + 32)
  else if between "192" "222" c && negb (Ascii.eqb c "215")
       then ascii_of_nat (nat_of_ascii c + 32)
  else c.

Definition is_digit (c : ascii) : bool := between "0" "9" c.

(** The character class [[a-z0-9-]]. *)
Definition is_name_char (c : ascii) : bool :=
  between "a" "z" c || is_digit c || Ascii.eqb c "-".

(** [.replace(/[^a-z0-9-]/g, '-')] on one code unit. *)
Definition sanitize (c : ascii) : ascii :=
  if is_name_char c then c else "-"%char.

End Char.

Fixpoint string_map (f : ascii -> ascii) (s : string) : string :=
  match s with
  | EmptyString => EmptyString
  | String c s' => String (f c) (string_map f s')
  end.

Definition toLowerCase (s : string) : string := string_map Char.toLowerCase s.

Definition replace_non_name_chars (s : string) : string := string_map Char.sanitize s.

(** [s.substring(0, n)]. *)
Definition substring_to (n : nat) (s : string) : string := substring 0 n s.

Inductive SecretCategory := financial | identity | medical.

Definition category_name (c : SecretCategory) : string :=
  match c with
  | financial => "financial"
  | identity => "identity"
  | medical => "medical"
  end.

Definition getSecretName (userId category key : string) : string :=
  substring_to 127
    (replace_non_name_chars (toLowerCase (userId ++ "-" ++ category ++ "-" ++ key))).

Definition getPinSecretName (userId : string) : string :=
  substring_to 127 (replace_non_name_chars (toLowerCase (userId ++ "-system-pin"))).

Definition getLockoutSecretName (userId : string) : string :=
  substring_to 127 (replace_non_name_chars (toLowerCase (userId ++ "-system-lockout"))).

(** ** PIN format *)

Fixpoint all_digits (s : string) : bool :=
  match s with
  | EmptyString => true
  | String c s' => Char.is_digit c && all_digits s'
  end.

(** [/^\d{4,6}$/.test(pin)]: without the [m] flag [$] only matches at the
    very end of the input, so the whole string is four to six digits. *)
Definition is_pin_format (pin : string) : bool :=
  ((4 <=? String.length pin) && (String.length pin <=? 6))%nat && all_digits pin.

(** ** Hex encoding of buffers *)

Definition hex_digit (n : N) : ascii :=
  match n with
  | 0%N => "0" | 1%N => "1" | 2%N => "2" | 3%N => "3" | 4%N => "4"
  | 5%N => "5" | 6%N => "6" | 7%N => "7" | 8%N => "8" | 9%N => "9"
  | 10%N => "a" | 11%N => "b" | 12%N => "c" | 13%N => "d" | 14%N => "e"
  | _ => "f"
  end%char.

(** [buffer.toString('hex')] *)
Fixpoint hex (bs : list byte) : string :=
  match bs with
  | [] => EmptyString
  | b :: bs' =>
      let n := Byte.to_N b in
      String (hex_digit (n / 16)) (String (hex_digit (n mod 16)) (hex bs'))
  end.

(** ** JSON documents

    The values [JSON.parse] can return.  Objects keep their properties in
    insertion order. *)

Inductive json :=
| JNull
| JBool (b : bool)
| JNum (n : Z)
| JStr (s : string)
| JArr (items : list json)
| JObj (properties : list (string * json)).

Fixpoint assoc (k : string) (ps : list (string * json)) : option json :=
  match ps with
  | [] => None
  | (k', v) :: ps' => if String.eqb k k' then Some v else assoc k ps'
  end.

(** [obj.k = v] on the property list: an existing property keeps its place,
    a new one goes last. *)
Fixpoint assoc_set (k : string) (v : json) (ps : list (string * json))
  : list (string * json) :=
  match ps with
  | [] => [(k, v)]
  | (k', v') :: ps' =>
      if String.eqb k k' then (k, v) :: ps' else (k', v') :: assoc_set k v ps'
  end.

(** JavaScript truthiness of a property value; [None] is [undefined]. *)
Definition truthy (v : option json) : bool :=
  match v with
  | None | Some JNull => false
  | Some (JBool b) => b
  | Some (JNum n) => negb (n =? 0)
  | Some (JStr s) => negb (String.eqb s "")
  | Some (JArr _) | Some (JObj _) => true
  end.

(** The documents this module writes. *)
Definition pinRecord (hash salt : string) : json :=
  JObj [("hash", JStr hash); ("salt", JStr salt)].

Definition lockoutRecord (failedAttempts : Z) (lockedUntil : option Z) : json :=
  JObj [("failedAttempts", JNum failedAttempts);
        ("lockedUntil", match lockedUntil with Some t => JNum t | None => JNull end)].

(** ** Exceptions and outcomes *)

Inductive exn :=
| Error (message : string)                           (* [new Error(message)] *)
| RestError (code : option string) (statusCode : option Z)
                                                     (* thrown by the vault client *)
| SyntaxError                                        (* [JSON.parse] *)
| TypeError.

(** [azureError.code === 'SecretNotFound' || azureError.statusCode === 404] *)
Definition is_not_found (e : exn) : bool :=
  match e with
  | RestError code statusCode =>
      match code with Some c => String.eqb c "SecretNotFound" | None => false end
      || match statusCode with Some n => n =? 404 | None => false end
  | _ => false
  end.

Definition SecretNotFound : exn := RestError (Some "SecretNotFound") (Some 404).

(** [Unmodelled] marks runs that leave the embedding: stored documents whose
    properties violate the TypeScript types of the source (a string where a
    number is declared, an array in place of a record), where JavaScript's
    coercions would have to be followed.  It is not an exception and no
    handler catches it. *)
Inductive outcome (A : Type) :=
| Ok (a : A)
| Throw (e : exn)
| Unmodelled.
Arguments Ok {A} a.
Arguments Throw {A} e.
Arguments Unmodelled {A}.

(** ** The world: vault, environment, clock and entropy *)

Module KeyVaultSecret.
Record t := mk { value : string; tags : gmap string string }.
End KeyVaultSecret.

(** What the module does that can be observed from outside: requests sent
    to the vault and key derivations run. *)
Inductive event :=
| GetSecret (name : string)
| SetSecret (name value : string)
| BeginDeleteSecret (name : string)
| Pbkdf2 (password salt : string).

Record world := World {
  vaultUrl : option string;          (* [process.env.AZURE_KEY_VAULT_URL] *)
  _client : option string;           (* the lazily created [SecretClient] *)
  secrets : gmap string KeyVaultSecret.t;
  outages : list (option exn);       (* per request: the failure it meets, if any *)
  clock : nat -> N;                  (* successive readings of the clock, in ms
                                        since the epoch *)
  ticks : nat;
  entropy : nat -> byte;             (* the stream behind [crypto.randomBytes] *)
  drawn : nat;
  trace : list event
}.

Definition set_client (c : string) (w : world) : world :=
  World (vaultUrl w) (Some c) (secrets w) (outages w) (clock w) (ticks w)
        (entropy w) (drawn w) (trace w).

Definition set_secrets (m : gmap string KeyVaultSecret.t) (w : world) : world :=
  World (vaultUrl w) (_client w) m (outages w) (clock w) (ticks w)
        (entropy w) (drawn w) (trace w).

Definition set_outages (o : list (option exn)) (w : world) : world :=
  World (vaultUrl w) (_client w) (secrets w) o (clock w) (ticks w)
        (entropy w) (drawn w) (trace w).

Definition tick (w : world) : world :=
  World (vaultUrl w) (_client w) (secrets w) (outages w) (clock w) (S (ticks w))
        (entropy w) (drawn w) (trace w).

Definition draw (n : nat) (w : world) : world :=
  World (vaultUrl w) (_client w) (secrets w) (outages w) (clock w) (ticks w)
        (entropy w) (drawn w + n)%nat (trace w).

Definition log (ev : event) (w : world) : world :=
  World (vaultUrl w) (_client w) (secrets w) (outages w) (clock w) (ticks w)
        (entropy w) (drawn w) (trace w ++ [ev]).

(** The value stored under a name, if any. *)
Definition stored (w : world) (name : string) : option string :=
  KeyVaultSecret.value <$> secrets w !! name.

(** ** The monad of [async] functions *)

Definition M (A : Type) : Type := world -> outcome A * world.

Definition ret {A} (a : A) : M A := fun w => (Ok a, w).

Definition throw {A} (e : exn) : M A := fun w => (Throw e, w).

Definition unmodelled {A} : M A := fun w => (Unmodelled, w).

Definition bind {A B} (m : M A) (k : A -> M B) : M B :=
  fun w =>
    match m w with
    | (Ok a, w') => k a w'
    | (Throw e, w') => (Throw e, w')
    | (Unmodelled, w') => (Unmodelled, w')
    end.

(** [try { body } catch (e) { handler }] *)
Definition try_catch {A} (body : M A) (handler : exn -> M A) : M A :=
  fun w =>
    match body w with
    | (Throw e, w') => handler e w'
    | r => r
    end.

Declare Scope vault_scope.
Delimit Scope vault_scope with vault.
Notation "'let!' x ':=' m 'in' k" := (bind m (fun x => k))
  (at level 10, x pattern, m at level 200, k at level 200) : vault_scope.
Notation "m ';;;' k" := (bind m (fun _ => k))
  (at level 100, k at level 200, right associativity) : vault_scope.
Local Open Scope vault_scope.

(** ** The JavaScript runtime the module calls into

    Library functions of Node.js that the source uses as black boxes. *)

Class Runtime := {
  (** [crypto.pbkdf2Sync(password, salt, iterations, keylen, digest)] *)
  pbkdf2Sync : string -> string -> N -> N -> string -> list byte;
  (** [JSON.stringify] *)
  JSON_stringify : json -> string;
  (** [JSON.parse]; [None] is a thrown [SyntaxError] *)
  JSON_parse : string -> option json;
  (** [Buffer.from(s).toString('base64')] *)
  base64 : string -> string;
  (** [new Date(ms).toISOString()] *)
  toISOString : Z -> string;
  (** [new Date(ms).toLocaleTimeString()] *)
  toLocaleTimeString : Z -> string
}.

(** What the embedding relies on from [JSON]: the empty string is not a
    document, and the two records this module writes are read back as
    written. *)
Class JSONLaws `{Runtime} : Prop := {
  parse_empty : JSON_parse "" = None;
  parse_stringify_pin : forall hash salt,
    JSON_parse (JSON_stringify (pinRecord hash salt)) = Some (pinRecord hash salt);
  parse_stringify_lockout : forall failedAttempts lockedUntil,
    JSON_parse (JSON_stringify (lockoutRecord failedAttempts lockedUntil))
    = Some (lockoutRecord failedAttempts lockedUntil)
}.

(** ** Environment primitives *)

(** [Date.now()], and the reading behind [new Date()]. *)
Definition Date_now : M Z := fun w => (Ok (Z.of_N (clock w (ticks w))), tick w).

(** [crypto.randomBytes(n)] *)
Definition randomBytes (n : nat) : M (list byte) :=
  fun w => (Ok (map (entropy w) (seq (drawn w) n)), draw n w).

Definition observe (ev : event) : M unit := fun w => (Ok tt, log ev w).

(** Lazy initialisation of the vault client; [!vaultUrl] holds for an unset
    and for an empty variable. *)
Definition getClient : M string :=
  fun w =>
    match _client w with
    | Some c => (Ok c, w)
    | None =>
        match vaultUrl w with
        | None | Some "" =>
            (Throw (Error "AZURE_KEY_VAULT_URL environment variable is not set"), w)
        | Some url => (Ok url, set_client url w)
        end
    end.

(** ** The vault client

    The three requests of [@azure/keyvault-secrets] that the module sends,
    against one vault: a finite map from secret names to values with tags.
    Every request is recorded in the trace and meets the next entry of
    [outages]; a request that meets no outage is served from the map, and
    reading or deleting an absent name is answered with [SecretNotFound]
    (HTTP 404).  A deleted name is absent at once and can be written again;
    the retention period of a soft-deleted secret is not part of this
    model. *)
Module SecretClient.

Definition request (ev : event) : M unit :=
  fun w =>
    let w' := log ev w in
    match outages w' with
    | [] => (Ok tt, w')
    | None :: rest => (Ok tt, set_outages rest w')
    | Some e :: rest => (Throw e, set_outages rest w')
    end.

Definition getSecret (name : string) : M KeyVaultSecret.t :=
  request (GetSecret name) ;;;
  fun w =>
    match secrets w !! name with
    | Some s => (Ok s, w)
    | None => (Throw SecretNotFound, w)
    end.

Definition setSecret (name value : string) (tags : gmap string string) : M unit :=
  request (SetSecret name value) ;;;
  fun w => (Ok tt, set_secrets (<[name := KeyVaultSecret.mk value tags]> (secrets w)) w).

Definition beginDeleteSecret (name : string) : M unit :=
  request (BeginDeleteSecret name) ;;;
  fun w =>
    match secrets w !! name with
    | Some _ => (Ok tt, set_secrets (delete name (secrets w)) w)
    | None => (Throw SecretNotFound, w)
    end.

End SecretClient.

(** ** Result shapes *)

Module LockoutStatus.
Record t := mk { locked : bool; attemptsLeft : Z; unlockTime : option Z }.
End LockoutStatus.

Module VerifyResult.
Record t := mk {
  valid : bool;
  locked : bool;
  attemptsLeft : Z;
  unlockTime : option Z;
  error : option string
}.
End VerifyResult.

Module SecretResult.
Record t := mk {
  success : bool;
  value : option string;
  error : option string;
  locked : option bool;
  attemptsLeft : option Z
}.
End SecretResult.

Section SecureVault.

Context `{RT : Runtime}.

(** *** Secret store adapter *)

Definition saveSecret (userId : string) (category : SecretCategory)
    (key value : string) (metadata : option (gmap string string)) : M unit :=
  let! _ := getClient in
  let secretName := getSecretName userId (category_name category) key in
  let! now := Date_now in
  SecretClient.setSecret secretName value
    (default ∅ metadata
     ∪ {[ "userId" := base64 userId;
          "category" := category_name category;
          "key" := key;
          "createdAt" := toISOString now ]}).

Definition getSecret (userId : string) (category : SecretCategory) (key : string)
  : M (option string) :=
  let! _ := getClient in
  let secretName := getSecretName userId (category_name category) key in
  try_catch
    (let! secret := SecretClient.getSecret secretName in
     (* [secret.value || null] *)
     ret (if String.eqb (KeyVaultSecret.value secret) "" then None
          else Some (KeyVaultSecret.value secret)))
    (fun error => if is_not_found error then ret None else throw error).

Definition deleteSecret (userId : string) (category : SecretCategory) (key : string)
  : M unit :=
  let! _ := getClient in
  SecretClient.beginDeleteSecret (getSecretName userId (category_name category) key).

(** *** PIN management *)

Definition hashPin (pin salt : string) : string :=
  hex (pbkdf2Sync pin salt 100000 64 "sha512").

(** A call of [hashPin], leaving its mark in the trace. *)
Definition call_hashPin (pin salt : string) : M string :=
  observe (Pbkdf2 pin salt) ;;; ret (hashPin pin salt).

Definition clearUserLockout (userId : string) : M unit :=
  let! _ := getClient in
  let secretName := getLockoutSecretName userId in
  try_catch (SecretClient.beginDeleteSecret secretName)
            (fun _ => ret tt).

Definition saveUserPin (userId pin : string) : M unit :=
  let! _ := getClient in
  let secretName := getPinSecretName userId in
  if negb (is_pin_format pin) then throw (Error "PIN must be 4-6 digits")
  else
    let! bytes := randomBytes 32 in
    let salt := hex bytes in
    let! hashedPin := call_hashPin pin salt in
    let! now := Date_now in
    SecretClient.setSecret secretName (JSON_stringify (pinRecord hashedPin salt))
      {[ "userId" := base64 userId;
         "type" := "pin";
         "createdAt" := toISOString now ]} ;;;
    clearUserLockout userId.

Definition hasUserPin (userId : string) : M bool :=
  let! _ := getClient in
  let secretName := getPinSecretName userId in
  try_catch
    (SecretClient.getSecret secretName ;;; ret true)
    (fun error => if is_not_found error then ret false else throw error).

(** *** Reading stored documents *)

Definition parse (text : string) : M json :=
  match JSON_parse text with
  | Some doc => ret doc
  | None => throw SyntaxError
  end.

(** [doc.k]: reading a property of [null] throws, any other value that is
    not an object with that property gives [undefined]. *)
Definition property (k : string) (doc : json) : M (option json) :=
  match doc with
  | JNull => throw TypeError
  | JObj ps => ret (assoc k ps)
  | _ => ret None
  end.

(** [doc.k = v] in strict-mode code. *)
Definition set_property (k : string) (v : json) (doc : json) : M json :=
  match doc with
  | JObj ps => ret (JObj (assoc_set k v ps))
  | JArr _ => unmodelled
  | _ => throw TypeError
  end.

(** [v || 0] where a number is expected. *)
Definition number_or_zero (v : option json) : M Z :=
  if truthy v then
    match v with
    | Some (JNum n) => ret n
    | _ => unmodelled
    end
  else ret 0.

(** *** Lockout tracking *)

Definition fresh_budget : LockoutStatus.t :=
  LockoutStatus.mk false MAX_PIN_ATTEMPTS None.

Definition getLockoutStatus (userId : string) : M LockoutStatus.t :=
  let! _ := getClient in
  let secretName := getLockoutSecretName userId in
  try_catch
    (let! secret := SecretClient.getSecret secretName in
     if String.eqb (KeyVaultSecret.value secret) "" then ret fresh_budget
     else
       let! lockoutData := parse (KeyVaultSecret.value secret) in
       let! now := Date_now in
       let! lockedUntil := property "lockedUntil" lockoutData in
       if truthy lockedUntil then
         match lockedUntil with
         | Some (JNum t) =>
             if now <? t then
               (* still locked *)
               ret (LockoutStatus.mk true 0 (Some t))
             else
               (* lockout expired, reset *)
               clearUserLockout userId ;;; ret fresh_budget
         | _ => unmodelled
         end
       else
         let! failedAttempts := property "failedAttempts" lockoutData in
         let! n := number_or_zero failedAttempts in
         ret (LockoutStatus.mk false (MAX_PIN_ATTEMPTS - n) None))
    (fun error => if is_not_found error then ret fresh_budget else throw error).

Definition recordFailedAttempt (userId : string) : M LockoutStatus.t :=
  let! _ := getClient in
  let secretName := getLockoutSecretName userId in
  let initial := lockoutRecord 0 None in
  let! lockoutData :=
    try_catch
      (let! existing := SecretClient.getSecret secretName in
       if String.eqb (KeyVaultSecret.value existing) "" then ret initial
       else parse (KeyVaultSecret.value existing))
      (fun _ => (* no existing lockout data *) ret initial) in
  let! previous := property "failedAttempts" lockoutData in
  let! n := number_or_zero previous in
  let failedAttempts := n + 1 in
  let! lockoutData := set_property "failedAttempts" (JNum failedAttempts) lockoutData in
  let! lockoutData :=
    (* lock out after max attempts *)
    if MAX_PIN_ATTEMPTS <=? failedAttempts then
      let! now := Date_now in
      set_property "lockedUntil" (JNum (now + LOCKOUT_DURATION_MS)) lockoutData
    else ret lockoutData in
  SecretClient.setSecret secretName (JSON_stringify lockoutData)
    {[ "userId" := base64 userId; "type" := "lockout" ]} ;;;
  let! lockedUntil := property "lockedUntil" lockoutData in
  if truthy lockedUntil then
    match lockedUntil with
    | Some (JNum t) => ret (LockoutStatus.mk true 0 (Some t))
    | _ => unmodelled
    end
  else ret (LockoutStatus.mk false (MAX_PIN_ATTEMPTS - failedAttempts) None).

(** *** Access control *)

(** [hash === inputHash] for a stored property and a computed string. *)
Definition strict_equal (inputHash : string) (hash : option json) : bool :=
  match hash with
  | Some (JStr h) => String.eqb inputHash h
  | _ => false
  end.

Definition verifyUserPin (userId pin : string) : M VerifyResult.t :=
  (* check lockout first *)
  let! lockoutStatus := getLockoutStatus userId in
  if LockoutStatus.locked lockoutStatus then
    ret (VerifyResult.mk false true 0 (LockoutStatus.unlockTime lockoutStatus)
           (Some ("Too many failed attempts. Try again after "
                  ++ match LockoutStatus.unlockTime lockoutStatus with
                     | Some t => toLocaleTimeString t
                     | None => "undefined"
                     end)))
  else
    let! _ := getClient in
    let secretName := getPinSecretName userId in
    try_catch
      (let! secret := SecretClient.getSecret secretName in
       if String.eqb (KeyVaultSecret.value secret) "" then
         ret (VerifyResult.mk false false (LockoutStatus.attemptsLeft lockoutStatus)
                None (Some "No PIN set"))
       else
         let! record := parse (KeyVaultSecret.value secret) in
         let! hash := property "hash" record in
         let! salt := property "salt" record in
         let! inputHash :=
           match salt with
           | Some (JStr salt) => call_hashPin pin salt
           | _ => throw TypeError   (* [pbkdf2Sync] rejects a salt that is no string *)
           end in
         if strict_equal inputHash hash then
           (* clear failed attempts on success *)
           clearUserLockout userId ;;;
           ret (VerifyResult.mk true false MAX_PIN_ATTEMPTS None None)
         else
           (* record failed attempt *)
           let! newStatus := recordFailedAttempt userId in
           ret (VerifyResult.mk false
                  (LockoutStatus.locked newStatus)
                  (LockoutStatus.attemptsLeft newStatus)
                  (LockoutStatus.unlockTime newStatus)
                  (Some (if LockoutStatus.locked newStatus
                         then "Too many failed attempts. Try again in 15 minutes."
                         else "Incorrect PIN. "
                              ++ pretty (LockoutStatus.attemptsLeft newStatus)
                              ++ " attempts remaining."))))
      (fun error =>
         if is_not_found error then
           ret (VerifyResult.mk false false MAX_PIN_ATTEMPTS None (Some "No PIN set"))
         else throw error).

Definition getSecretWithPin (userId pin : string) (category : SecretCategory)
    (key : string) : M SecretResult.t :=
  (* verify PIN first *)
  let! pinResult := verifyUserPin userId pin in
  if negb (VerifyResult.valid pinResult) then
    ret (SecretResult.mk false None
           (VerifyResult.error pinResult)
           (Some (VerifyResult.locked pinResult))
           (Some (VerifyResult.attemptsLeft pinResult)))
  else
    (* PIN valid, get the actual secret *)
    let! value := getSecret userId category key in
    match value with
    | None => ret (SecretResult.mk false None (Some "Secret not found") None None)
    | Some v => ret (SecretResult.mk true (Some v) None None None)
    end.

End SecureVault.

(** ** A reference runtime

    A concrete [Runtime] on which the model runs: documents are serialised
    through their countable encoding (a tag character followed by the
    binary digits of the code), the key derivation is a stand-in that
    concatenates password and salt, and the date and base64 formatters are
    simple printers.  None of this is cryptography; it gives the
    development a runtime that satisfies [JSONLaws] and computes. *)
Module Reference.

Definition leaf : Type := bool + Z + string.

Fixpoint encode_json (j : json) : gen_tree leaf :=
  match j with
  | JNull => GenNode 0 []
  | JBool b => GenLeaf (inl (inl b))
  | JNum n => GenLeaf (inl (inr n))
  | JStr s => GenLeaf (inr s)
  | JArr items => GenNode 1 (map encode_json items)
  | JObj ps =>
      GenNode 2 (map (fun p => GenNode 3 [GenLeaf (inr (fst p)); encode_json (snd p)]) ps)
  end.

Fixpoint decode_json (t : gen_tree leaf) : json :=
  match t with
  | GenLeaf (inl (inl b)) => JBool b
  | GenLeaf (inl (inr n)) => JNum n
  | GenLeaf (inr s) => JStr s
  | GenNode 1 ts => JArr (map decode_json ts)
  | GenNode 2 ts =>
      JObj (map (fun t' =>
                   match t' with
                   | GenNode 3 [GenLeaf (inr k); v] => (k, decode_json v)
                   | _ => (EmptyString, JNull)
                   end) ts)
  | _ => JNull
  end.

Fixpoint bits (p : positive) : string :=
  match p with
  | xH => EmptyString
  | xO p' => String "0" (bits p')
  | xI p' => String "1" (bits p')
  end.

Fixpoint of_bits (s : string) : option positive :=
  match s with
  | EmptyString => Some xH
  | String c s' =>
      match of_bits s' with
      | Some p =>
          if Ascii.eqb c "0" then Some (xO p)
          else if Ascii.eqb c "1" then Some (xI p)
          else None
      | None => None
      end
  end.

Definition stringify (j : json) : string :=
  String "J" (bits (encode (encode_json j))).

Definition parse_text (s : string) : option json :=
  match s with
  | String "J" s' =>
      match of_bits s' with
      | Some p => decode_json <$> decode p
      | None => None
      end
  | _ => None
  end.

Definition byte_of_ascii (c : ascii) : byte :=
  match Byte.of_N (N_of_ascii c) with Some b => b | None => x00 end.

Definition derive (password salt : string) (iterations keylen : N) (digest : string)
  : list byte :=
  map byte_of_ascii (list_ascii_of_string (password ++ ":" ++ salt)).

#[export] Instance runtime : Runtime := {|
  pbkdf2Sync := derive;
  JSON_stringify := stringify;
  JSON_parse := parse_text;
  base64 := fun s => s;
  toISOString := fun t => pretty t;
  toLocaleTimeString := fun t => pretty t
|}.

(** A configured deployment with an empty vault, no outages, a clock
    that advances one second per reading and a constant entropy
    source. *)
Definition genesis : world :=
  World (Some "https://familyhub.vault.azure.net") None ∅ []
        (fun n => 1700000000000 + 1000 * N.of_nat n)%N 0%nat
        (fun _ => x2a) 0%nat [].

Definition alice : string := "alice@example.com".

Definition alice_salt : string := hex (map (entropy genesis) (seq 0 32)).

Definition alice_hash : string := hashPin "1234" alice_salt.

(** Alice has set the PIN 1234. *)
Definition with_pin : world := snd (saveUserPin alice "1234" genesis).

(** ... and has then mistyped it once, twice, three times. *)
Definition one_failure : world := snd (verifyUserPin alice "0000" with_pin).

Definition two_failures : world := snd (verifyUserPin alice "4321" one_failure).

Definition locked_out_world : world := snd (verifyUserPin alice "9999" two_failures).

(** A locked-out user whose PinRecord is gone. *)
Definition locked_without_pin : world :=
  set_secrets (delete (getPinSecretName alice) (secrets locked_out_world)) locked_out_world.

(** The same vault an hour later. *)
Definition an_hour_later (w : world) : world :=
  World (vaultUrl w) (_client w) (secrets w) (outages w)
        (fun n => clock w n + 3600000)%N (ticks w) (entropy w) (drawn w) (trace w).

(** The vault is unavailable for exactly the next request. *)
Definition ServiceUnavailable : exn := RestError (Some "ServiceUnavailable") (Some 503).

Definition next_request_fails (w : world) : world :=
  set_outages [Some ServiceUnavailable] w.

(** A valid address of 124 characters. *)
Definition long_userId : string :=
  "grandmother.of.the.whole.family.and.her.very.long.mailbox.name@calendar.the-extended-familyhub-household.example-hosting.org".

End Reference.

(** ** Vocabulary of the statements *)

(** The deployment can reach its vault: a client exists already or the
    vault URL is set to a non-empty string. *)
Definition configured (w : world) : bool :=
  match _client w, vaultUrl w with
  | Some _, _ => true
  | None, Some (String _ _) => true
  | None, _ => false
  end.

(** A configured deployment whose vault answers every request. *)
Definition online (w : world) : Prop :=
  configured w = true /\ outages w = [].

(** The world once the client has been created. *)
Definition connect (w : world) : world := snd (getClient w).

Definition live (w : world) : Prop :=
  is_Some (_client w) /\ outages w = [].

Section Vocabulary.

Context `{RT : Runtime}.

(** The user's PinRecord holds this hash and salt. *)
Definition pin_is (w : world) (userId hash salt : string) : Prop :=
  stored w (getPinSecretName userId) = Some (JSON_stringify (pinRecord hash salt)).

(** The user's LockoutRecord holds these fields. *)
Definition lockout_is (w : world) (userId : string) (failedAttempts : Z)
    (lockedUntil : option Z) : Prop :=
  stored w (getLockoutSecretName userId)
  = Some (JSON_stringify (lockoutRecord failedAttempts lockedUntil)).

Definition no_lockout (w : world) (userId : string) : Prop :=
  secrets w !! getLockoutSecretName userId = None.

Definition no_pin (w : world) (userId : string) : Prop :=
  secrets w !! getPinSecretName userId = None.

(** The Clean state with [n] failed attempts on record: no record at all
    when [n = 0], or a record counting [n] failures and no lock. *)
Definition clean (w : world) (userId : string) (n : Z) : Prop :=
  (n = 0 /\ no_lockout w userId) \/ lockout_is w userId n None.

End Vocabulary.

Section Continuations.

Context `{RT : Runtime}.

(** The next reading of the clock. *)
Definition now (w : world) : Z := Z.of_N (clock w (ticks w)).

(** The part of [verifyUserPin] that follows the lockout check. *)
Definition pin_check (userId pin : string) (lockoutStatus : LockoutStatus.t)
  : M VerifyResult.t :=
  let! _ := getClient in
  let secretName := getPinSecretName userId in
  try_catch
    (let! secret := SecretClient.getSecret secretName in
     if String.eqb (KeyVaultSecret.value secret) "" then
       ret (VerifyResult.mk false false (LockoutStatus.attemptsLeft lockoutStatus)
              None (Some "No PIN set"))
     else
       let! record := parse (KeyVaultSecret.value secret) in
       let! hash := property "hash" record in
       let! salt := property "salt" record in
       let! inputHash :=
         match salt with
         | Some (JStr salt) => call_hashPin pin salt
         | _ => throw TypeError
         end in
       if strict_equal inputHash hash then
         clearUserLockout userId ;;;
         ret (VerifyResult.mk true false MAX_PIN_ATTEMPTS None None)
       else
         let! newStatus := recordFailedAttempt userId in
         ret (VerifyResult.mk false
                (LockoutStatus.locked newStatus)
                (LockoutStatus.attemptsLeft newStatus)
                (LockoutStatus.unlockTime newStatus)
                (Some (if LockoutStatus.locked newStatus
                       then "Too many failed attempts. Try again in 15 minutes."
                       else "Incorrect PIN. "
                            ++ pretty (LockoutStatus.attemptsLeft newStatus)
                            ++ " attempts remaining."))))
    (fun error =>
       if is_not_found error then
         ret (VerifyResult.mk false false MAX_PIN_ATTEMPTS None (Some "No PIN set"))
       else throw error).

(** The answer of [verifyUserPin] to a locked-out user. *)
Definition locked_out (unlockTime : option Z) : VerifyResult.t :=
  VerifyResult.mk false true 0 unlockTime
    (Some ("Too many failed attempts. Try again after "
           ++ match unlockTime with
              | Some t => toLocaleTimeString t
              | None => "undefined"
              end)).

(** The answer of [verifyUserPin] to a wrong PIN, from the status that
    [recordFailedAttempt] reports. *)
Definition wrong_pin (newStatus : LockoutStatus.t) : VerifyResult.t :=
  VerifyResult.mk false
    (LockoutStatus.locked newStatus)
    (LockoutStatus.attemptsLeft newStatus)
    (LockoutStatus.unlockTime newStatus)
    (Some (if LockoutStatus.locked newStatus
           then "Too many failed attempts. Try again in 15 minutes."
           else "Incorrect PIN. "
                ++ pretty (LockoutStatus.attemptsLeft newStatus)
                ++ " attempts remaining.")).

Definition lockout_tags (userId : string) : gmap string string :=
  {[ "userId" := base64 userId; "type" := "lockout" ]}.

(** The world after [recordFailedAttempt] has written a lockout document. *)
Definition write_lockout (userId : string) (doc : json) (w : world) : world :=
  set_secrets
    (<[getLockoutSecretName userId
       := KeyVaultSecret.mk (JSON_stringify doc) (lockout_tags userId)]> (secrets w))
    (log (SetSecret (getLockoutSecretName userId) (JSON_stringify doc)) w).

End Continuations.

Section States.

Context `{RT : Runtime}.

(** Attempts are allowed and [n] of the budget are used: the Clean state
    with [n] failures on record, or a lock whose time has passed (it is
    cleared by the next status check). *)
Definition allowed (w : world) (userId : string) (n : Z) : Prop :=
  (0 <= n < MAX_PIN_ATTEMPTS /\ clean w userId n)
  \/ (n = 0 /\ exists m t, lockout_is w userId m (Some t) /\ 0 < t <= now w).

(** The vault holds the same secrets under every name other than [names]. *)
Definition same_except (names : list string) (w w' : world) : Prop :=
  forall name, name ∉ names -> secrets w' !! name = secrets w !! name.

(** From [w] to [w'] the trace only grew, and every secret read in between
    was read under one of [names]. *)
Definition reads_only (names : list string) (w w' : world) : Prop :=
  exists events,
    trace w' = (trace w ++ events)%list
    /\ forall name, GetSecret name ∈ events -> name ∈ names.

End States.

(** ** Masked values

    [maskValue] and the string methods it is written with. *)

(** [s.includes(t)] *)
Fixpoint includes (s t : string) : bool :=
  String.prefix t s
  || match s with
     | EmptyString => false
     | String _ s' => includes s' t
     end.

(** [s.slice(-n)]: the last [n] code units, the whole of a shorter string. *)
Definition slice_last (n : nat) (s : string) : string :=
  let start := (String.length s - n)%nat in
  substring start (String.length s - start) s.

(** [s.repeat(n)] *)
Fixpoint repeat_string (s : string) (n : nat) : string :=
  match n with
  | O => EmptyString
  | S n' => s ++ repeat_string s n'
  end.

(** The slot [${s[0]}] of a template literal; reading past the end gives
    [undefined]. *)
Definition first_char (s : string) : string :=
  match s with
  | String c _ => String c EmptyString
  | EmptyString => "undefined"
  end.

Definition maskValue (key value : string) : string :=
  let lowerKey := toLowerCase key in
  let length := String.length value in
  (* SSN: XXX-XX-1234 *)
  if includes lowerKey "ssn" || includes lowerKey "social" then
    if (4 <=? length)%nat then "XXX-XX-" ++ slice_last 4 value else "****"
  (* bank accounts: ****1234 *)
  else if includes lowerKey "account" || includes lowerKey "routing" then
    if (4 <=? length)%nat then "****" ++ slice_last 4 value else "****"
  (* credit cards: ****-****-****-1234 *)
  else if includes lowerKey "card" then
    if (4 <=? length)%nat then "****-****-****-" ++ slice_last 4 value else "****"
  (* passwords and PINs: completely masked *)
  else if includes lowerKey "password" || includes lowerKey "pin" then "********"
  (* default: show first and last char *)
  else if (2 <? length)%nat then
    first_char value ++ repeat_string "*" (length - 2) ++ slice_last 1 value
  else "****".

(** ** Listing the vault *)

Module SecretProperties.
Record t := mk { name : string; tags : gmap string string }.
End SecretProperties.

(** The properties under which a stored secret is listed. *)
Definition properties_of (p : string * KeyVaultSecret.t) : SecretProperties.t :=
  SecretProperties.mk (fst p) (KeyVaultSecret.tags (snd p)).

Module MaskedSecret.
Record t := mk {
  category : option string;   (* the tag as found; [None] is [undefined] *)
  key : string;
  maskedValue : string;
  createdAt : string
}.
End MaskedSecret.

(** What the listing and the route handlers take from the platform beyond
    [Runtime]: the order in which the vault serves its secrets to
    [listPropertiesOfSecrets], and the [message] of the errors that the
    vault client and the JavaScript engine raise. *)
Class Platform := {
  enumerate : gmap string KeyVaultSecret.t -> list (string * KeyVaultSecret.t);
  platform_message : exn -> string
}.

(** A listing serves every stored secret once. *)
Class PlatformLaws `{Platform} : Prop := {
  enumerate_all : forall m, enumerate m ≡ₚ map_to_list m
}.

(** [error.message] *)
Definition message `{Platform} (error : exn) : string :=
  match error with
  | Error m => m
  | _ => platform_message error
  end.

(** A template-literal slot filled from a tag that may be missing. *)
Definition template (v : option string) : string := default "undefined" v.

Section Listing.

Context `{RT : Runtime} `{PF : Platform}.

(** [client.listPropertiesOfSecrets()], read to the end.  The listing is
    one request: it meets the next entry of [outages] like any other, and
    an answered one serves the properties of every secret in the order of
    [enumerate].  The trace keeps to requests for single secrets and does
    not record it. *)
Definition listPropertiesOfSecrets : M (list SecretProperties.t) :=
  fun w =>
    let served := map properties_of (enumerate (secrets w)) in
    match outages w with
    | [] => (Ok served, w)
    | None :: rest => (Ok served, set_outages rest w)
    | Some e :: rest => (Throw e, set_outages rest w)
    end.

(** [getSecret] as [getSecretsMasked] calls it, with arguments read from
    tags: the cast [as SecretCategory] is erased at run time, so the
    category is whatever string the tag holds, and a missing tag arrives
    as [undefined]. *)
Definition getSecret_untyped (userId : string) (category key : option string)
  : M (option string) :=
  let! _ := getClient in
  let secretName := getSecretName userId (template category) (template key) in
  try_catch
    (let! secret := SecretClient.getSecret secretName in
     ret (if String.eqb (KeyVaultSecret.value secret) "" then None
          else Some (KeyVaultSecret.value secret)))
    (fun error => if is_not_found error then ret None else throw error).

(** The body of the [for await] loop for one listed secret, given the
    array collected so far. *)
Definition visit (userId userIdBase64 : string) (secretProperties : SecretProperties.t)
    (secrets : list MaskedSecret.t) : M (list MaskedSecret.t) :=
  let tags := SecretProperties.tags secretProperties in
  if bool_decide (tags !! "userId" = Some userIdBase64) then
    let! value := getSecret_untyped userId (tags !! "category") (tags !! "key") in
    match tags !! "key" with
    | None => throw TypeError     (* [key.toLowerCase()] inside [maskValue] *)
    | Some key =>
        ret (secrets ++ [MaskedSecret.mk (tags !! "category") key
                           (maskValue key (default "" value))
                           (default "" (tags !! "createdAt"))])%list
    end
  else ret secrets.

(** The loop.  The array [secrets] is declared outside the [try] block and
    keeps what was pushed when an iteration throws, so the loop hands it
    back together with the outcome. *)
Fixpoint for_await (userId userIdBase64 : string) (listing : list SecretProperties.t)
    (secrets : list MaskedSecret.t) (w : world)
  : outcome unit * list MaskedSecret.t * world :=
  match listing with
  | [] => (Ok tt, secrets, w)
  | secretProperties :: rest =>
      match visit userId userIdBase64 secretProperties secrets w with
      | (Ok secrets', w') => for_await userId userIdBase64 rest secrets' w'
      | (Throw e, w') => (Throw e, secrets, w')
      | (Unmodelled, w') => (Unmodelled, secrets, w')
      end
  end.

Definition getSecretsMasked (userId : string) : M (list MaskedSecret.t) :=
  let! _ := getClient in
  let userIdBase64 := base64 userId in
  fun w =>
    match listPropertiesOfSecrets w with
    | (Ok listing, w1) =>
        match for_await userId userIdBase64 listing [] w1 with
        | (Unmodelled, _, w2) => (Unmodelled, w2)
        | (_, secrets, w2) => (Ok secrets, w2)     (* caught and logged *)
        end
    | (Throw _, w1) => (Ok [], w1)                 (* caught and logged *)
    | (Unmodelled, w1) => (Unmodelled, w1)
    end.

End Listing.

(** ** Route handlers

    The handlers of [/api/pin] and [/api/secure-info].  A handler is given
    the e-mail address of the session, if there is one, and the request
    body as [request.json()] reads it, [None] when the body is no JSON
    document.  Fields of a body that are truthy but no strings (a PIN sent
    as a number) leave the embedding at the point where the source passes
    them on as strings. *)

Module Response.
Record t := mk { status : Z; body : json }.
End Response.

(** The properties that [JSON.stringify] writes: those that are not
    [undefined]. *)
Definition defined_properties (data : list (string * option json))
  : list (string * json) :=
  omap (fun p => match snd p with
                 | Some v => Some (fst p, v)
                 | None => None
                 end) data.

(** [NextResponse.json(data, { status })]; without a status the answer is
    200. *)
Definition NextResponse_json (data : list (string * option json)) (status : Z)
  : Response.t :=
  Response.mk status (JObj (defined_properties data)).

Definition error_response (text : string) (status : Z) : Response.t :=
  NextResponse_json [("error", Some (JStr text))] status.

(** [await request.json()] *)
Definition request_json (body : option json) : M json :=
  match body with
  | Some doc => ret doc
  | None => throw SyntaxError
  end.

(** A field that the source hands on as a string. *)
Definition as_string (v : option json) : M string :=
  match v with
  | Some (JStr s) => ret s
  | _ => unmodelled
  end.

(** [validCategories.includes(category)] *)
Definition category_of (s : string) : option SecretCategory :=
  if String.eqb s "financial" then Some financial
  else if String.eqb s "identity" then Some identity
  else if String.eqb s "medical" then Some medical
  else None.

Definition valid_category (v : option json) : option SecretCategory :=
  match v with
  | Some (JStr s) => category_of s
  | _ => None
  end.

(** [/^[a-zA-Z0-9_-]+$/.test(key)] *)
Definition is_key_char (c : ascii) : bool :=
  Char.between "a" "z" c || Char.between "A" "Z" c || Char.is_digit c
  || Ascii.eqb c "_" || Ascii.eqb c "-".

Fixpoint all_key_chars (s : string) : bool :=
  match s with
  | EmptyString => true
  | String c s' => is_key_char c && all_key_chars s'
  end.

Definition is_key_format (key : string) : bool :=
  negb (String.eqb key "") && all_key_chars key.

(** The e-mail address of a session that has one: [session?.user?.email]
    is neither missing nor empty. *)
Definition signed_in (session : option string) : option string :=
  match session with
  | Some (String c email) => Some (String c email)
  | _ => None
  end.

(** A query parameter that is present and not empty. *)
Definition given (v : option string) : option string :=
  match v with
  | Some (String c s) => Some (String c s)
  | _ => None
  end.

Definition Unauthorized : Response.t := error_response "Unauthorized" 401.

(** The failure answer shared by both branches of [PUT /api/pin]. *)
Definition refused (error : option string) (locked : option bool)
    (attemptsLeft : option Z) : Response.t :=
  NextResponse_json
    [("success", Some (JBool false));
     ("error", JStr <$> error);
     ("locked", JBool <$> locked);
     ("attemptsLeft", JNum <$> attemptsLeft)]
    (if truthy (JBool <$> locked) then 429 else 401).

Module PinRoute.
Section Handlers.

Context `{RT : Runtime} `{PF : Platform}.

(** GET - check if user has PIN set *)
Definition GET (session : option string) : M Response.t :=
  match signed_in session with
  | None => ret Unauthorized
  | Some email =>
      try_catch
        (let! hasPin := hasUserPin email in
         ret (NextResponse_json [("hasPin", Some (JBool hasPin))] 200))
        (fun _ => ret (error_response "Failed to check PIN status" 500))
  end.

(** POST - set or update PIN *)
Definition POST (session : option string) (body : option json) : M Response.t :=
  match signed_in session with
  | None => ret Unauthorized
  | Some email =>
      try_catch
        (let! doc := request_json body in
         let! pin := property "pin" doc in
         if negb (truthy pin) then ret (error_response "PIN is required" 400)
         else
           let! pin := as_string pin in
           (* validate PIN format *)
           if negb (is_pin_format pin) then ret (error_response "PIN must be 4-6 digits" 400)
           else
             saveUserPin email pin ;;;
             ret (NextResponse_json [("success", Some (JBool true));
                                     ("message", Some (JStr "PIN set successfully"))] 200))
        (fun error =>
           (* every value thrown here is an [Error] *)
           ret (error_response (message error) 500))
  end.

(** PUT - verify PIN and optionally retrieve a secret *)
Definition PUT (session : option string) (body : option json) : M Response.t :=
  match signed_in session with
  | None => ret Unauthorized
  | Some email =>
      try_catch
        (let! doc := request_json body in
         let! pin := property "pin" doc in
         let! category := property "category" doc in
         let! key := property "key" doc in
         if negb (truthy pin) then ret (error_response "PIN is required" 400)
         else if truthy category && truthy key then
           (* category and key provided: verify PIN and return the secret *)
           match valid_category category with
           | None => ret (error_response "Invalid category" 400)
           | Some category =>
               let! pin := as_string pin in
               let! key := as_string key in
               let! result := getSecretWithPin email pin category key in
               if negb (SecretResult.success result) then
                 ret (refused (SecretResult.error result) (SecretResult.locked result)
                        (SecretResult.attemptsLeft result))
               else
                 ret (NextResponse_json [("success", Some (JBool true));
                                         ("value", JStr <$> SecretResult.value result)] 200)
           end
         else
           (* just verify PIN without retrieving a secret *)
           let! pin := as_string pin in
           let! result := verifyUserPin email pin in
           if negb (VerifyResult.valid result) then
             ret (refused (VerifyResult.error result) (Some (VerifyResult.locked result))
                    (Some (VerifyResult.attemptsLeft result)))
           else
             ret (NextResponse_json [("success", Some (JBool true));
                                     ("message", Some (JStr "PIN verified"))] 200))
        (fun _ => ret (error_response "Failed to verify PIN" 500))
  end.

End Handlers.
End PinRoute.

Definition masked_json (s : MaskedSecret.t) : json :=
  JObj (defined_properties
          [("category", JStr <$> MaskedSecret.category s);
           ("key", Some (JStr (MaskedSecret.key s)));
           ("maskedValue", Some (JStr (MaskedSecret.maskedValue s)));
           ("createdAt", Some (JStr (MaskedSecret.createdAt s)))]).

Module SecureInfoRoute.
Section Handlers.

Context `{RT : Runtime} `{PF : Platform}.

(** GET - list user's stored info (masked only) *)
Definition GET (session : option string) : M Response.t :=
  match signed_in session with
  | None => ret Unauthorized
  | Some email =>
      try_catch
        (let! secrets := getSecretsMasked email in
         ret (NextResponse_json [("secrets", Some (JArr (map masked_json secrets)))] 200))
        (fun _ => ret (error_response "Failed to fetch secure information" 500))
  end.

(** POST - save sensitive info to Azure Key Vault *)
Definition POST (session : option string) (body : option json) : M Response.t :=
  match signed_in session with
  | None => ret Unauthorized
  | Some email =>
      try_catch
        (let! doc := request_json body in
         let! category := property "category" doc in
         let! key := property "key" doc in
         let! value := property "value" doc in
         (* validate required fields *)
         if negb (truthy category) || negb (truthy key) || negb (truthy value) then
           ret (error_response "Category, key, and value are required" 400)
         else
           (* validate category *)
           match valid_category category with
           | None =>
               ret (error_response
                      "Invalid category. Must be one of: financial, identity, medical" 400)
           | Some category =>
               let! key := as_string key in
               (* validate key format *)
               if negb (is_key_format key) then
                 ret (error_response
                        "Key must contain only letters, numbers, underscores, and hyphens" 400)
               else
                 let! value := as_string value in
                 saveSecret email category key value None ;;;
                 ret (NextResponse_json [("success", Some (JBool true))] 200)
           end)
        (fun _ => ret (error_response "Failed to save secure information" 500))
  end.

(** DELETE - remove sensitive info from Azure Key Vault; [category] and
    [key] are the query parameters of the request URL. *)
Definition DELETE (session : option string) (category key : option string)
  : M Response.t :=
  match signed_in session with
  | None => ret Unauthorized
  | Some email =>
      match given category, given key with
      | Some category, Some key =>
          match category_of category with
          | None => ret (error_response "Invalid category" 400)
          | Some category =>
              try_catch
                (deleteSecret email category key ;;;
                 ret (NextResponse_json [("success", Some (JBool true))] 200))
                (fun _ => ret (error_response "Failed to delete secure information" 500))
          end
      | _, _ => ret (error_response "Category and key are required" 400)
      end
  end.

(** PUT - retrieve a specific secret value, unmasked *)
Definition PUT (session : option string) (body : option json) : M Response.t :=
  match signed_in session with
  | None => ret Unauthorized
  | Some email =>
      try_catch
        (let! doc := request_json body in
         let! category := property "category" doc in
         let! key := property "key" doc in
         if negb (truthy category) || negb (truthy key) then
           ret (error_response "Category and key are required" 400)
         else
           match valid_category category with
           | None => ret (error_response "Invalid category" 400)
           | Some category =>
               let! key := as_string key in
               let! value := getSecret email category key in
               match value with
               | None => ret (error_response "Secret not found" 404)
               | Some value => ret (NextResponse_json [("value", Some (JStr value))] 200)
               end
           end)
        (fun _ => ret (error_response "Failed to retrieve secure information" 500))
  end.

End Handlers.
End SecureInfoRoute.

(** ** Vocabulary of masking, names and listing *)

(** The keys of which [maskValue] shows the last four characters of the
    value: those naming a social security number, a bank account or a
    card. *)
Definition shows_last_four (key : string) : bool :=
  let lowerKey := toLowerCase key in
  includes lowerKey "ssn" || includes lowerKey "social"
  || includes lowerKey "account" || includes lowerKey "routing"
  || includes lowerKey "card".

(** The keys naming a password or a PIN. *)
Definition names_password (key : string) : bool :=
  let lowerKey := toLowerCase key in
  includes lowerKey "password" || includes lowerKey "pin".

Fixpoint all_name_chars (s : string) : bool :=
  match s with
  | EmptyString => true
  | String c s' => Char.is_name_char c && all_name_chars s'
  end.

(** A name that Key Vault accepts as far as this module can tell: one to
    127 characters from [[a-z0-9-]]. *)
Definition is_vault_name (name : string) : bool :=
  ((1 <=? String.length name) && (String.length name <=? 127))%nat
  && all_name_chars name.

(** What is left of a user id or a key in a secret name. *)
Definition sanitized (s : string) : string := replace_non_name_chars (toLowerCase s).

Section ListingVocabulary.

Context `{RT : Runtime}.

(** A listed secret that [getSecretsMasked] takes for one of the user's. *)
Definition belongs_to (userId : string) (p : string * KeyVaultSecret.t) : bool :=
  bool_decide (KeyVaultSecret.tags (snd p) !! "userId" = Some (base64 userId)).

(** The entry that [getSecretsMasked] makes of a listed secret with a
    [key] tag: category, key and creation time are the tags', the value
    that is masked is the one stored under the name derived from the
    tags. *)
Definition entry_of (w : world) (userId : string) (p : string * KeyVaultSecret.t)
  : option MaskedSecret.t :=
  let tags := KeyVaultSecret.tags (snd p) in
  match tags !! "key" with
  | None => None
  | Some key =>
      let name := getSecretName userId (template (tags !! "category")) key in
      Some (MaskedSecret.mk (tags !! "category") key
              (maskValue key (default "" (stored w name)))
              (default "" (tags !! "createdAt")))
  end.

(** The entries of the user's secrets in a stretch of the listing. *)
Definition entries (w : world) (userId : string)
    (listing : list (string * KeyVaultSecret.t)) : list MaskedSecret.t :=
  omap (entry_of w userId) (filter (fun p => belongs_to userId p = true) listing).

(** Every secret of the user in this stretch of the listing has a [key]
    tag. *)
Definition keyed (userId : string) (listing : list (string * KeyVaultSecret.t)) : Prop :=
  forall p, p ∈ listing -> belongs_to userId p = true ->
            is_Some (KeyVaultSecret.tags (snd p) !! "key").

End ListingVocabulary.

(** ** Vocabulary of the handlers *)

(** A property of the JSON document that a response carries. *)
Definition field (k : string) (r : Response.t) : option json :=
  match Response.body r with
  | JObj ps => assoc k ps
  | _ => None
  end.

(** ** A reference platform

    The vault serves its secrets in the order of the map's own
    enumeration, and platform errors carry a fixed message. *)
Module ReferencePlatform.

#[export] Instance platform : Platform := {|
  enumerate := map_to_list;
  platform_message := fun _ => "The request failed"
|}.

End ReferencePlatform.

(** ** Example worlds *)
Module Examples.

Import Reference ReferencePlatform.

(** Alice keeps three secrets and has no PIN. *)
Definition with_iban : world :=
  snd (saveSecret alice financial "iban" "DE02120300000000202051" None genesis).

Definition with_secrets : world :=
  snd (saveSecret alice medical "insurance_card" "A1234567" None
         (snd (saveSecret alice identity "ssn" "078-05-1120" None with_iban))).

(** ... and then sets the PIN 1234. *)
Definition with_secrets_and_pin : world := snd (saveUserPin alice "1234" with_secrets).

(** Alice is locked out and has an IBAN on file. *)
Definition locked_out_with_iban : world :=
  snd (saveSecret alice financial "iban" "DE02120300000000202051" None locked_out_world).

(** A deployment whose vault URL is not set. *)
Definition unconfigured : world :=
  World None None ∅ [] (clock genesis) 0%nat (entropy genesis) 0%nat [].

(** Two addresses that differ in punctuation only. *)
Definition a_dot_b : string := "a.b@example.com".
Definition a_underscore_b : string := "a_b@example.com".

End Examples.

(** * Properties *)

(** ** Names of short user ids

    Truncation to 127 characters is the only way the three names of one
    user can coincide. *)

Lemma string_map_app f a b : string_map f (a ++ b) = string_map f a ++ string_map f b.
Proof. induction a as [|c a IH]; simpl; [reflexivity|]. now rewrite IH. Qed.

Lemma string_map_length f a : String.length (string_map f a) = String.length a.
Proof. induction a as [|c a IH]; simpl; [reflexivity|]. now rewrite IH. Qed.

(** The character of a derived name just after the sanitised user id. *)
Lemma name_char_after_userId u suffix i :
  (String.length u + i < 127)%nat ->
  String.get (String.length u + i)
    (substring_to 127 (replace_non_name_chars (toLowerCase (u ++ suffix))))
  = String.get i (replace_non_name_chars (toLowerCase suffix)).
Proof.
  intros Hlen. unfold substring_to, replace_non_name_chars, toLowerCase.
  rewrite substring_correct1 by exact Hlen.
  rewrite !string_map_app.
  set (prefix := string_map Char.sanitize (string_map Char.toLowerCase u)).
  replace (String.length u + i + 0)%nat with (i + String.length prefix)%nat
    by (subst prefix; rewrite !string_map_length; lia).
  symmetry. apply append_correct2.
Qed.

Lemma short_userId_pin_lockout_names u :
  (String.length u < 119)%nat -> getPinSecretName u <> getLockoutSecretName u.
Proof.
  intros Hlen E.
  assert (String.get (String.length u + 8) (getPinSecretName u)
          = String.get (String.length u + 8) (getLockoutSecretName u)) as G
    by now rewrite E.
  unfold getPinSecretName, getLockoutSecretName in G.
  rewrite !name_char_after_userId in G by lia. discriminate.
Qed.

Lemma short_userId_secret_lockout_names u c k :
  (String.length u < 126)%nat ->
  getSecretName u (category_name c) k <> getLockoutSecretName u.
Proof.
  intros Hlen E.
  assert (String.get (String.length u + 1) (getSecretName u (category_name c) k)
          = String.get (String.length u + 1) (getLockoutSecretName u)) as G
    by now rewrite E.
  unfold getSecretName, getLockoutSecretName in G.
  rewrite !name_char_after_userId in G by lia.
  destruct c; discriminate.
Qed.

Lemma short_userId_secret_pin_names u c k :
  (String.length u < 126)%nat ->
  getSecretName u (category_name c) k <> getPinSecretName u.
Proof.
  intros Hlen E.
  assert (String.get (String.length u + 1) (getSecretName u (category_name c) k)
          = String.get (String.length u + 1) (getPinSecretName u)) as G
    by now rewrite E.
  unfold getSecretName, getPinSecretName in G.
  rewrite !name_char_after_userId in G by lia.
  destruct c; discriminate.
Qed.

Lemma substring_app_same_prefix a b b' n :
  substring 0 (n - String.length a) b = substring 0 (n - String.length a) b' ->
  substring 0 n (a ++ b) = substring 0 n (a ++ b').
Proof.
  revert n. induction a as [|c a IH]; intros n E; simpl in *.
  - now rewrite Nat.sub_0_r in E.
  - destruct n as [|n]; [reflexivity|]. simpl in *. f_equal. now apply IH.
Qed.

(** From 119 characters on, the PinRecord and the LockoutRecord of a user
    share one name. *)
Lemma long_userId_pin_lockout_names u :
  (119 <= String.length u)%nat -> getPinSecretName u = getLockoutSecretName u.
Proof.
  intros Hlen. unfold getPinSecretName, getLockoutSecretName, substring_to,
    replace_non_name_chars, toLowerCase.
  rewrite !string_map_app. apply substring_app_same_prefix.
  rewrite !string_map_length.
  assert (127 - String.length u <= 8)%nat as Hm by lia.
  destruct (127 - String.length u)%nat as [|[|[|[|[|[|[|[|[|m]]]]]]]]];
    try reflexivity; lia.
Qed.

(** ** Running the monad *)

Lemma bind_ok {A B} (m : M A) (k : A -> M B) w a w' :
  m w = (Ok a, w') -> bind m k w = k a w'.
Proof. unfold bind. now intros ->. Qed.

Lemma bind_throw {A B} (m : M A) (k : A -> M B) w e w' :
  m w = (Throw e, w') -> bind m k w = (Throw e, w').
Proof. unfold bind. now intros ->. Qed.

Lemma try_catch_ok {A} (m : M A) h w a w' :
  m w = (Ok a, w') -> try_catch m h w = (Ok a, w').
Proof. unfold try_catch. now intros ->. Qed.

Lemma try_catch_throw {A} (m : M A) h w e w' :
  m w = (Throw e, w') -> try_catch m h w = h e w'.
Proof. unfold try_catch. now intros ->. Qed.

(** ** The client *)

Lemma getClient_live w : live w -> exists c, getClient w = (Ok c, w).
Proof.
  intros [[c Hc] _]. exists c. unfold getClient. now rewrite Hc.
Qed.

Lemma getClient_online w : online w -> exists c, getClient w = (Ok c, connect w).
Proof.
  intros [Hc _]. unfold connect, configured, getClient in *.
  destruct (_client w) as [c|]; [now exists c|].
  destruct (vaultUrl w) as [[|a url]|]; try discriminate.
  now eexists.
Qed.

Lemma connect_live w : online w -> live (connect w).
Proof.
  intros [Hc Ho]. unfold connect, configured, getClient, live in *.
  destruct (_client w) as [c|] eqn:E; simpl.
  - rewrite E. eauto.
  - destruct (vaultUrl w) as [[|a url]|]; try discriminate. simpl. eauto.
Qed.

Lemma connect_frame w :
  secrets (connect w) = secrets w /\ clock (connect w) = clock w
  /\ ticks (connect w) = ticks w /\ entropy (connect w) = entropy w
  /\ drawn (connect w) = drawn w /\ trace (connect w) = trace w.
Proof.
  unfold connect, getClient.
  destruct (_client w); [easy|]. destruct (vaultUrl w) as [[|a url]|]; easy.
Qed.

Lemma connect_secrets w : secrets (connect w) = secrets w.
Proof. apply connect_frame. Qed.

Lemma connect_stored w name : stored (connect w) name = stored w name.
Proof. unfold stored. now rewrite connect_secrets. Qed.

(** Every function of the module starts by fetching the client, so it runs
    the same from [w] and from [connect w]. *)
Lemma from_connect {A} (k : string -> M A) w :
  online w -> bind getClient k w = bind getClient k (connect w).
Proof.
  intros [Hc _]. unfold bind, connect, configured, getClient in *.
  destruct (_client w) eqn:E; simpl.
  - now rewrite E.
  - destruct (vaultUrl w) as [[|a url]|]; try discriminate. reflexivity.
Qed.

Lemma request_live ev w : live w -> SecretClient.request ev w = (Ok tt, log ev w).
Proof.
  intros [_ Ho]. unfold SecretClient.request. simpl. now rewrite Ho.
Qed.

Lemma client_getSecret_hit name s w :
  live w -> secrets w !! name = Some s ->
  SecretClient.getSecret name w = (Ok s, log (GetSecret name) w).
Proof.
  intros Hw Hs. unfold SecretClient.getSecret.
  rewrite (bind_ok _ _ _ _ _ (request_live _ w Hw)). simpl. now rewrite Hs.
Qed.

Lemma client_getSecret_miss name w :
  live w -> secrets w !! name = None ->
  SecretClient.getSecret name w = (Throw SecretNotFound, log (GetSecret name) w).
Proof.
  intros Hw Hs. unfold SecretClient.getSecret.
  rewrite (bind_ok _ _ _ _ _ (request_live _ w Hw)). simpl. now rewrite Hs.
Qed.

Lemma client_setSecret name value tags w :
  live w ->
  SecretClient.setSecret name value tags w
  = (Ok tt, set_secrets (<[name := KeyVaultSecret.mk value tags]> (secrets w))
                        (log (SetSecret name value) w)).
Proof.
  intros Hw. unfold SecretClient.setSecret.
  now rewrite (bind_ok _ _ _ _ _ (request_live _ w Hw)).
Qed.

Lemma client_beginDeleteSecret_hit name s w :
  live w -> secrets w !! name = Some s ->
  SecretClient.beginDeleteSecret name w
  = (Ok tt, set_secrets (delete name (secrets w)) (log (BeginDeleteSecret name) w)).
Proof.
  intros Hw Hs. unfold SecretClient.beginDeleteSecret.
  rewrite (bind_ok _ _ _ _ _ (request_live _ w Hw)). simpl. now rewrite Hs.
Qed.

Lemma client_beginDeleteSecret_miss name w :
  live w -> secrets w !! name = None ->
  SecretClient.beginDeleteSecret name w
  = (Throw SecretNotFound, log (BeginDeleteSecret name) w).
Proof.
  intros Hw Hs. unfold SecretClient.beginDeleteSecret.
  rewrite (bind_ok _ _ _ _ _ (request_live _ w Hw)). simpl. now rewrite Hs.
Qed.

Lemma stored_Some w name v :
  stored w name = Some v ->
  exists tags, secrets w !! name = Some (KeyVaultSecret.mk v tags).
Proof.
  unfold stored. destruct (secrets w !! name) as [[v' tags]|]; simpl; [|discriminate].
  intros [= ->]. now exists tags.
Qed.

Arguments getPinSecretName : simpl never.
Arguments getLockoutSecretName : simpl never.
Arguments getSecretName : simpl never.

Ltac solve_live :=
  match goal with H : live _ |- live _ => destruct H; split; simpl; assumption end.

Section Proofs.

Context `{RT : Runtime} `{JL : !JSONLaws}.

Lemma stringify_not_empty j :
  JSON_parse (JSON_stringify j) = Some j -> String.eqb (JSON_stringify j) "" = false.
Proof.
  intros Hp. destruct (String.eqb_spec (JSON_stringify j) ""); [|reflexivity].
  rewrite e, parse_empty in Hp. discriminate.
Qed.

Lemma pin_text_not_empty h s : String.eqb (JSON_stringify (pinRecord h s)) "" = false.
Proof. apply stringify_not_empty, parse_stringify_pin. Qed.

Lemma lockout_text_not_empty n l :
  String.eqb (JSON_stringify (lockoutRecord n l)) "" = false.
Proof. apply stringify_not_empty, parse_stringify_lockout. Qed.

Lemma parse_pin h s : forall w, parse (JSON_stringify (pinRecord h s)) w = (Ok (pinRecord h s), w).
Proof. intros w. unfold parse. now rewrite parse_stringify_pin. Qed.

Lemma parse_lockout n l : forall w,
  parse (JSON_stringify (lockoutRecord n l)) w = (Ok (lockoutRecord n l), w).
Proof. intros w. unfold parse. now rewrite parse_stringify_lockout. Qed.

(** A PinRecord and a LockoutRecord are different documents, so a user who
    has both stores them under different names. *)
Lemma names_apart w u h s n l :
  pin_is w u h s -> lockout_is w u n l -> getPinSecretName u <> getLockoutSecretName u.
Proof.
  unfold pin_is, lockout_is. intros Hp Hl E. rewrite E, Hl in Hp.
  injection Hp as Hp.
  pose proof (parse_stringify_lockout n l) as P. rewrite Hp, parse_stringify_pin in P.
  destruct l; discriminate.
Qed.

Lemma names_apart_absent w u h s :
  pin_is w u h s -> no_lockout w u -> getPinSecretName u <> getLockoutSecretName u.
Proof.
  unfold pin_is, no_lockout, stored. intros Hp Hl E. rewrite E, Hl in Hp. discriminate.
Qed.

Lemma names_apart_clean w u h s n :
  pin_is w u h s -> clean w u n -> getPinSecretName u <> getLockoutSecretName u.
Proof.
  intros Hp [[_ Hl]|Hl]; eauto using names_apart, names_apart_absent.
Qed.

(** ** Lockout tracker *)

Lemma clearUserLockout_live u w :
  live w ->
  clearUserLockout u w
  = (Ok tt, set_secrets (delete (getLockoutSecretName u) (secrets w))
                        (log (BeginDeleteSecret (getLockoutSecretName u)) w)).
Proof.
  intros Hw. unfold clearUserLockout.
  destruct (getClient_live w Hw) as [c Hc]. rewrite (bind_ok _ _ _ _ _ Hc).
  destruct (secrets w !! getLockoutSecretName u) as [s|] eqn:E.
  - now rewrite (try_catch_ok _ _ _ _ _ (client_beginDeleteSecret_hit _ s w Hw E)).
  - rewrite (try_catch_throw _ _ _ _ _ (client_beginDeleteSecret_miss _ w Hw E)).
    unfold ret. f_equal. unfold set_secrets, log. simpl.
    now rewrite (delete_id _ _ E).
Qed.

Lemma getLockoutStatus_absent u w :
  live w -> no_lockout w u ->
  getLockoutStatus u w = (Ok fresh_budget, log (GetSecret (getLockoutSecretName u)) w).
Proof.
  intros Hw Hn. unfold getLockoutStatus.
  destruct (getClient_live w Hw) as [c Hc]. rewrite (bind_ok _ _ _ _ _ Hc).
  rewrite (try_catch_throw _ _ _ SecretNotFound
             (log (GetSecret (getLockoutSecretName u)) w)); [reflexivity|].
  now apply bind_throw, client_getSecret_miss.
Qed.

Lemma getLockoutStatus_counted u n w :
  live w -> lockout_is w u n None ->
  getLockoutStatus u w
  = (Ok (LockoutStatus.mk false (MAX_PIN_ATTEMPTS - n) None),
     tick (log (GetSecret (getLockoutSecretName u)) w)).
Proof.
  intros Hw Hl. unfold getLockoutStatus.
  destruct (getClient_live w Hw) as [c Hc]. rewrite (bind_ok _ _ _ _ _ Hc).
  destruct (stored_Some _ _ _ Hl) as [tags Hs].
  apply try_catch_ok.
  rewrite (bind_ok _ _ _ _ _ (client_getSecret_hit _ _ w Hw Hs)). simpl.
  rewrite lockout_text_not_empty.
  rewrite (bind_ok _ _ _ _ _ (parse_lockout _ _ _)).
  unfold bind, Date_now, number_or_zero. simpl.
  destruct (n =? 0) eqn:E; simpl; [|reflexivity].
  apply Z.eqb_eq in E. now subst.
Qed.

Lemma getLockoutStatus_locked u n t w :
  live w -> lockout_is w u n (Some t) -> t <> 0 -> Z.of_N (clock w (ticks w)) < t ->
  getLockoutStatus u w
  = (Ok (LockoutStatus.mk true 0 (Some t)),
     tick (log (GetSecret (getLockoutSecretName u)) w)).
Proof.
  intros Hw Hl Ht Hnow. unfold getLockoutStatus.
  destruct (getClient_live w Hw) as [c Hc]. rewrite (bind_ok _ _ _ _ _ Hc).
  destruct (stored_Some _ _ _ Hl) as [tags Hs].
  apply try_catch_ok.
  rewrite (bind_ok _ _ _ _ _ (client_getSecret_hit _ _ w Hw Hs)). simpl.
  rewrite lockout_text_not_empty.
  rewrite (bind_ok _ _ _ _ _ (parse_lockout _ _ _)).
  unfold bind, Date_now. simpl.
  apply Z.eqb_neq in Ht. rewrite Ht. simpl.
  apply Z.ltb_lt in Hnow. now rewrite Hnow.
Qed.

Lemma getLockoutStatus_expired u n t w :
  live w -> lockout_is w u n (Some t) -> t <> 0 -> t <= Z.of_N (clock w (ticks w)) ->
  getLockoutStatus u w
  = (Ok fresh_budget,
     set_secrets (delete (getLockoutSecretName u) (secrets w))
       (log (BeginDeleteSecret (getLockoutSecretName u))
          (tick (log (GetSecret (getLockoutSecretName u)) w)))).
Proof.
  intros Hw Hl Ht Hnow. unfold getLockoutStatus.
  destruct (getClient_live w Hw) as [c Hc]. rewrite (bind_ok _ _ _ _ _ Hc).
  destruct (stored_Some _ _ _ Hl) as [tags Hs].
  apply try_catch_ok.
  rewrite (bind_ok _ _ _ _ _ (client_getSecret_hit _ _ w Hw Hs)). simpl.
  rewrite lockout_text_not_empty.
  rewrite (bind_ok _ _ _ _ _ (parse_lockout _ _ _)).
  unfold bind, Date_now. simpl.
  apply Z.eqb_neq in Ht. rewrite Ht. simpl.
  apply Z.ltb_ge in Hnow. rewrite Hnow.
  rewrite clearUserLockout_live by solve_live. reflexivity.
Qed.

Lemma recordFailedAttempt_absent u w :
  live w -> no_lockout w u ->
  recordFailedAttempt u w
  = (Ok (LockoutStatus.mk false 2 None),
     write_lockout u (lockoutRecord 1 None) (log (GetSecret (getLockoutSecretName u)) w)).
Proof.
  intros Hw Hn. unfold recordFailedAttempt.
  destruct (getClient_live w Hw) as [c Hc]. rewrite (bind_ok _ _ _ _ _ Hc).
  erewrite bind_ok; cycle 1.
  { erewrite try_catch_throw; [reflexivity|].
    now apply bind_throw, client_getSecret_miss. }
  unfold bind. simpl. rewrite client_setSecret by solve_live. reflexivity.
Qed.

Lemma recordFailedAttempt_counted u n w :
  live w -> lockout_is w u n None -> n + 1 < MAX_PIN_ATTEMPTS ->
  recordFailedAttempt u w
  = (Ok (LockoutStatus.mk false (MAX_PIN_ATTEMPTS - (n + 1)) None),
     write_lockout u (lockoutRecord (n + 1) None)
       (log (GetSecret (getLockoutSecretName u)) w)).
Proof.
  intros Hw Hl Hn. unfold recordFailedAttempt.
  destruct (getClient_live w Hw) as [c Hc]. rewrite (bind_ok _ _ _ _ _ Hc).
  destruct (stored_Some _ _ _ Hl) as [tags Hs].
  erewrite bind_ok; cycle 1.
  { apply try_catch_ok.
    rewrite (bind_ok _ _ _ _ _ (client_getSecret_hit _ _ w Hw Hs)). simpl.
    rewrite lockout_text_not_empty. apply parse_lockout. }
  assert (number_or_zero (Some (JNum n)) = ret n) as Hz.
  { unfold number_or_zero. simpl. destruct (n =? 0) eqn:E; [|reflexivity].
    apply Z.eqb_eq in E. now subst. }
  unfold bind at 1. simpl. rewrite Hz. unfold bind, ret. simpl.
  apply Z.leb_gt in Hn. rewrite Hn. simpl.
  rewrite client_setSecret by solve_live. reflexivity.
Qed.

Lemma recordFailedAttempt_locking u n w :
  live w -> lockout_is w u n None -> MAX_PIN_ATTEMPTS <= n + 1 ->
  recordFailedAttempt u w
  = (Ok (LockoutStatus.mk true 0 (Some (now w + LOCKOUT_DURATION_MS))),
     write_lockout u (lockoutRecord (n + 1) (Some (now w + LOCKOUT_DURATION_MS)))
       (tick (log (GetSecret (getLockoutSecretName u)) w))).
Proof.
  intros Hw Hl Hn. unfold recordFailedAttempt.
  destruct (getClient_live w Hw) as [c Hc]. rewrite (bind_ok _ _ _ _ _ Hc).
  destruct (stored_Some _ _ _ Hl) as [tags Hs].
  erewrite bind_ok; cycle 1.
  { apply try_catch_ok.
    rewrite (bind_ok _ _ _ _ _ (client_getSecret_hit _ _ w Hw Hs)). simpl.
    rewrite lockout_text_not_empty. apply parse_lockout. }
  assert (number_or_zero (Some (JNum n)) = ret n) as Hz.
  { unfold number_or_zero. simpl. destruct (n =? 0) eqn:E; [|reflexivity].
    apply Z.eqb_eq in E. now subst. }
  unfold bind at 1. simpl. rewrite Hz. unfold bind, ret, Date_now. simpl.
  apply Z.leb_le in Hn. rewrite Hn. simpl.
  rewrite client_setSecret by solve_live. simpl.
  assert ((now w + LOCKOUT_DURATION_MS =? 0) = false) as Ht.
  { apply Z.eqb_neq. unfold now, LOCKOUT_DURATION_MS. lia. }
  unfold now in *. simpl in *. rewrite Ht. reflexivity.
Qed.

(** ** Access controller *)

Lemma verifyUserPin_unfold u pin :
  verifyUserPin u pin
  = (let! lockoutStatus := getLockoutStatus u in
     if LockoutStatus.locked lockoutStatus
     then ret (locked_out (LockoutStatus.unlockTime lockoutStatus))
     else pin_check u pin lockoutStatus).
Proof. reflexivity. Qed.

Lemma pin_check_absent u pin st w :
  live w -> no_pin w u ->
  pin_check u pin st w
  = (Ok (VerifyResult.mk false false MAX_PIN_ATTEMPTS None (Some "No PIN set")),
     log (GetSecret (getPinSecretName u)) w).
Proof.
  intros Hw Hn. unfold pin_check.
  destruct (getClient_live w Hw) as [c Hc]. rewrite (bind_ok _ _ _ _ _ Hc).
  rewrite (try_catch_throw _ _ _ SecretNotFound
             (log (GetSecret (getPinSecretName u)) w)); [reflexivity|].
  now apply bind_throw, client_getSecret_miss.
Qed.

(** The world once the PinRecord was read and the supplied PIN hashed. *)
Lemma pin_check_correct u pin s st w :
  live w -> pin_is w u (hashPin pin s) s ->
  pin_check u pin st w
  = (Ok (VerifyResult.mk true false MAX_PIN_ATTEMPTS None None),
     snd (clearUserLockout u
            (log (Pbkdf2 pin s) (log (GetSecret (getPinSecretName u)) w)))).
Proof.
  intros Hw Hp. unfold pin_check.
  destruct (getClient_live w Hw) as [c Hc]. rewrite (bind_ok _ _ _ _ _ Hc).
  destruct (stored_Some _ _ _ Hp) as [tags Hs].
  apply try_catch_ok.
  rewrite (bind_ok _ _ _ _ _ (client_getSecret_hit _ _ w Hw Hs)). simpl.
  rewrite pin_text_not_empty.
  rewrite (bind_ok _ _ _ _ _ (parse_pin _ _ _)).
  unfold bind at 1. simpl. unfold bind at 1. simpl.
  unfold bind at 1. unfold call_hashPin, bind at 1, observe, ret. simpl.
  rewrite String.eqb_refl.
  unfold bind. rewrite clearUserLockout_live by solve_live. reflexivity.
Qed.

Lemma pin_check_wrong u pin h s st w ns w' :
  live w -> pin_is w u h s -> hashPin pin s <> h ->
  recordFailedAttempt u (log (Pbkdf2 pin s) (log (GetSecret (getPinSecretName u)) w))
  = (Ok ns, w') ->
  pin_check u pin st w = (Ok (wrong_pin ns), w').
Proof.
  intros Hw Hp Hne Hr. unfold pin_check.
  destruct (getClient_live w Hw) as [c Hc]. rewrite (bind_ok _ _ _ _ _ Hc).
  destruct (stored_Some _ _ _ Hp) as [tags Hs].
  apply try_catch_ok.
  rewrite (bind_ok _ _ _ _ _ (client_getSecret_hit _ _ w Hw Hs)). simpl.
  rewrite pin_text_not_empty.
  rewrite (bind_ok _ _ _ _ _ (parse_pin _ _ _)).
  unfold bind at 1. simpl. unfold bind at 1. simpl.
  unfold bind at 1. unfold call_hashPin, bind at 1, observe, ret. simpl.
  apply String.eqb_neq in Hne. rewrite Hne.
  unfold bind. now rewrite Hr.
Qed.

Lemma verifyUserPin_unlocked u pin w st w1 :
  getLockoutStatus u w = (Ok st, w1) -> LockoutStatus.locked st = false ->
  verifyUserPin u pin w = pin_check u pin st w1.
Proof.
  intros Hs Hl. rewrite verifyUserPin_unfold, (bind_ok _ _ _ _ _ Hs). now rewrite Hl.
Qed.

Lemma verifyUserPin_locked_live u pin n t w :
  live w -> lockout_is w u n (Some t) -> 0 < t -> now w < t ->
  verifyUserPin u pin w
  = (Ok (locked_out (Some t)), tick (log (GetSecret (getLockoutSecretName u)) w)).
Proof.
  intros Hw Hl Ht Hnow. rewrite verifyUserPin_unfold.
  rewrite (bind_ok _ _ _ _ _ (getLockoutStatus_locked u n t w Hw Hl ltac:(lia) Hnow)).
  reflexivity.
Qed.

(** *** States and frames *)

Lemma same_except_pin names w w' u h s :
  same_except names w w' -> getPinSecretName u ∉ names ->
  pin_is w u h s -> pin_is w' u h s.
Proof. unfold pin_is, stored. intros Hf Hn Hp. now rewrite (Hf _ Hn). Qed.

Lemma same_except_stored names w w' name :
  same_except names w w' -> name ∉ names -> stored w' name = stored w name.
Proof. unfold stored. intros Hf Hn. now rewrite (Hf _ Hn). Qed.

Lemma not_in_one (a b : string) : a <> b -> a ∉ [b].
Proof. intros Hne Hin. apply list_elem_of_singleton in Hin. contradiction. Qed.

Lemma reads_only_refl names w w' : trace w' = trace w -> reads_only names w w'.
Proof.
  intros E. exists []. rewrite E, app_nil_r. split; [reflexivity|].
  intros name Hin. now apply not_elem_of_nil in Hin.
Qed.

Lemma reads_only_trans names w1 w2 w3 :
  reads_only names w1 w2 -> reads_only names w2 w3 -> reads_only names w1 w3.
Proof.
  intros (e1 & E1 & H1) (e2 & E2 & H2). exists (e1 ++ e2)%list.
  rewrite E2, E1, app_assoc. split; [reflexivity|].
  intros name Hin. apply elem_of_app in Hin as [Hin|Hin]; auto.
Qed.

Lemma reads_only_weaken names names' w w' :
  names ⊆ names' -> reads_only names w w' -> reads_only names' w w'.
Proof. intros Hsub (e & E & He). exists e. split; [exact E|]. auto. Qed.

Lemma reads_only_one name names w w' :
  name ∈ names -> reads_only [name] w w' -> reads_only names w w'.
Proof.
  intros Hin. apply reads_only_weaken. intros x Hx.
  apply list_elem_of_singleton in Hx. now subst.
Qed.

Lemma reads_only_get names name w w' :
  name ∈ names -> trace w' = (trace w ++ [GetSecret name])%list -> reads_only names w w'.
Proof.
  intros Hin E. exists [GetSecret name]. split; [exact E|].
  intros name' Hin'. apply list_elem_of_singleton in Hin'. now injection Hin' as ->.
Qed.

Lemma reads_only_other names ev w w' :
  (forall name, ev <> GetSecret name) ->
  trace w' = (trace w ++ [ev])%list -> reads_only names w w'.
Proof.
  intros Hev E. exists [ev]. split; [exact E|].
  intros name' Hin'. apply list_elem_of_singleton in Hin'. symmetry in Hin'.
  now apply Hev in Hin'.
Qed.

Ltac in_list := repeat first [apply list_elem_of_here | apply list_elem_of_further].

(** Peels the events logged on top of a world, one at a time. *)
Ltac reads :=
  repeat first
    [ apply reads_only_refl; reflexivity
    | eapply reads_only_trans;
      [| first [ eapply reads_only_get; cycle 1; [reflexivity | in_list]
               | eapply reads_only_other; cycle 1; [reflexivity | discriminate] ] ] ].

(** The status check of a user who is not locked out: it reports the
    remaining budget and leaves the Clean state behind. *)
Lemma getLockoutStatus_allowed u n w :
  live w -> allowed w u n ->
  exists w1,
    getLockoutStatus u w = (Ok (LockoutStatus.mk false (MAX_PIN_ATTEMPTS - n) None), w1)
    /\ live w1 /\ 0 <= n < MAX_PIN_ATTEMPTS /\ clean w1 u n
    /\ same_except [getLockoutSecretName u] w w1
    /\ clock w1 = clock w
    /\ (clean w u n -> secrets w1 = secrets w)
    /\ (lockout_is w u n None -> ticks w1 = S (ticks w))
    /\ reads_only [getLockoutSecretName u] w w1.
Proof.
  intros Hw [[Hn [[-> Ha]|Hc]]|[-> (m & t & Hl & Ht)]].
  - eexists. split; [apply (getLockoutStatus_absent u w Hw Ha)|].
    split_and!; try solve_live; try lia; try reflexivity.
    + left. split; [reflexivity|]. exact Ha.
    + now intros name _.
    + intros Hl. unfold no_lockout, lockout_is, stored in *. rewrite Ha in Hl. discriminate.
    + reads.
  - eexists. split; [apply (getLockoutStatus_counted u n w Hw Hc)|].
    split_and!; try solve_live; try lia; try reflexivity.
    + now right.
    + now intros name _.
    + reads.
  - assert (forall k, ~ lockout_is w u k None) as Hno.
    { intros k Hc. unfold lockout_is in *. rewrite Hl in Hc. injection Hc as Hc.
      pose proof (parse_stringify_lockout k None) as P.
      rewrite <- Hc, parse_stringify_lockout in P. discriminate. }
    eexists. split; [apply (getLockoutStatus_expired u m t w Hw Hl); unfold now in Ht; lia|].
    split_and!; try solve_live; try (unfold MAX_PIN_ATTEMPTS; lia); try reflexivity.
    + left. split; [reflexivity|]. unfold no_lockout. simpl. apply lookup_delete_eq.
    + intros name Hn. simpl. apply lookup_delete_ne. intros <-. apply Hn. now left.
    + intros [[_ Ha]|Hc]; [|now apply Hno in Hc].
      unfold no_lockout in Ha. simpl. now apply delete_id.
    + reads.
Qed.

Lemma clean_frame w w' u n : secrets w' = secrets w -> clean w u n -> clean w' u n.
Proof.
  unfold clean, no_lockout, lockout_is, stored. intros ->. auto.
Qed.

Lemma pin_is_frame w w' u h s : secrets w' = secrets w -> pin_is w u h s -> pin_is w' u h s.
Proof. unfold pin_is, stored. now intros ->. Qed.

Lemma names_apart_allowed w u h s n :
  pin_is w u h s -> allowed w u n -> getPinSecretName u <> getLockoutSecretName u.
Proof.
  intros Hp [[_ Hc]|[_ (m & t & Hl & _)]]; eauto using names_apart_clean, names_apart.
Qed.

Lemma write_lockout_is u n l w : lockout_is (write_lockout u (lockoutRecord n l) w) u n l.
Proof. unfold lockout_is, stored, write_lockout. simpl. now rewrite lookup_insert_eq. Qed.

Lemma write_lockout_frame u doc w w0 :
  secrets w = secrets w0 -> same_except [getLockoutSecretName u] w0 (write_lockout u doc w).
Proof.
  intros E name Hn. unfold write_lockout. simpl. rewrite E.
  apply lookup_insert_ne. intros <-. apply Hn. now left.
Qed.

(** Recording a failure in the Clean state. *)
Lemma recordFailedAttempt_clean u n w :
  live w -> clean w u n -> 0 <= n < MAX_PIN_ATTEMPTS ->
  exists ns w',
    recordFailedAttempt u w = (Ok ns, w')
    /\ live w'
    /\ LockoutStatus.attemptsLeft ns = MAX_PIN_ATTEMPTS - (n + 1)
    /\ LockoutStatus.locked ns = (MAX_PIN_ATTEMPTS <=? n + 1)
    /\ LockoutStatus.unlockTime ns
       = (if MAX_PIN_ATTEMPTS <=? n + 1 then Some (now w + LOCKOUT_DURATION_MS) else None)
    /\ lockout_is w' u (n + 1) (LockoutStatus.unlockTime ns)
    /\ same_except [getLockoutSecretName u] w w'
    /\ clock w' = clock w
    /\ reads_only [getLockoutSecretName u] w w'.
Proof.
  intros Hw Hc Hn.
  destruct (Z.leb_spec MAX_PIN_ATTEMPTS (n + 1)) as [Hlock|Hfree].
  - destruct Hc as [[-> _]|Hc]; [unfold MAX_PIN_ATTEMPTS in *; lia|].
    eexists _, _. split; [apply (recordFailedAttempt_locking u n w Hw Hc Hlock)|].
    split_and!; try solve_live; try reflexivity.
    + simpl. unfold MAX_PIN_ATTEMPTS in *. lia.
    + apply write_lockout_is.
    + now apply write_lockout_frame.
    + unfold write_lockout. reads.
  - destruct Hc as [[-> Ha]|Hc].
    + eexists _, _. split; [apply (recordFailedAttempt_absent u w Hw Ha)|].
      split_and!; try solve_live; try reflexivity.
      * apply write_lockout_is.
      * now apply write_lockout_frame.
      * unfold write_lockout. reads.
    + eexists _, _. split; [apply (recordFailedAttempt_counted u n w Hw Hc Hfree)|].
      split_and!; try solve_live; try reflexivity.
      * apply write_lockout_is.
      * now apply write_lockout_frame.
      * unfold write_lockout. reads.
Qed.

(** A wrong PIN from a user who is not locked out. *)
Lemma verifyUserPin_wrong_live u pin h s n w :
  live w -> allowed w u n -> pin_is w u h s -> hashPin pin s <> h ->
  exists ns w',
    verifyUserPin u pin w = (Ok (wrong_pin ns), w')
    /\ live w'
    /\ LockoutStatus.attemptsLeft ns = MAX_PIN_ATTEMPTS - (n + 1)
    /\ LockoutStatus.locked ns = (MAX_PIN_ATTEMPTS <=? n + 1)
    /\ LockoutStatus.unlockTime ns
       = (if MAX_PIN_ATTEMPTS <=? n + 1
          then Some (Z.of_N (clock w (S (ticks w))) + LOCKOUT_DURATION_MS) else None)
    /\ lockout_is w' u (n + 1) (LockoutStatus.unlockTime ns)
    /\ pin_is w' u h s
    /\ same_except [getLockoutSecretName u] w w'
    /\ clock w' = clock w
    /\ reads_only [getLockoutSecretName u; getPinSecretName u] w w'.
Proof.
  intros Hw Ha Hp Hne.
  pose proof (names_apart_allowed _ _ _ _ _ Hp Ha) as Hnames.
  destruct (getLockoutStatus_allowed u n w Hw Ha)
    as (w1 & Hs & Hw1 & Hn & Hc1 & Hf1 & Hk1 & Hsame & Htick & Hreads).
  pose proof (same_except_pin _ _ _ _ _ _ Hf1 (not_in_one _ _ Hnames) Hp) as Hp1.
  set (W := log (Pbkdf2 pin s) (log (GetSecret (getPinSecretName u)) w1)).
  assert (live W) as HW by (subst W; solve_live).
  assert (clean W u n) as HcW by (apply (clean_frame w1); [reflexivity|exact Hc1]).
  destruct (recordFailedAttempt_clean u n W HW HcW Hn)
    as (ns & w' & Hr & Hw' & Hleft & Hlocked & Hunlock & Hl' & Hf' & Hk' & Hreads').
  exists ns, w'.
  split.
  { rewrite (verifyUserPin_unlocked u pin w _ w1 Hs eq_refl).
    apply (pin_check_wrong u pin h s _ w1 ns w' Hw1 Hp1 Hne Hr). }
  assert (same_except [getLockoutSecretName u] w w') as Hf.
  { intros name Hn'. rewrite (Hf' name Hn'). subst W. simpl. apply (Hf1 name Hn'). }
  split_and!; try assumption.
  - rewrite Hunlock. destruct (Z.leb_spec MAX_PIN_ATTEMPTS (n + 1)) as [Hlock|_]; [|reflexivity].
    do 2 f_equal. unfold now. subst W. simpl. rewrite Hk1.
    destruct Ha as [[_ [[-> _]|Hc]]|[-> _]]; try (unfold MAX_PIN_ATTEMPTS in *; lia).
    now rewrite (Htick Hc).
  - apply (same_except_pin _ _ _ _ _ _ Hf (not_in_one _ _ Hnames) Hp).
  - rewrite Hk'. subst W. simpl. exact Hk1.
  - apply (reads_only_trans _ w w1).
    { apply (reads_only_one (getLockoutSecretName u)); [in_list|exact Hreads]. }
    apply (reads_only_trans _ w1 W); [subst W; reads|].
    apply (reads_only_one (getLockoutSecretName u)); [in_list|exact Hreads'].
Qed.

(** The correct PIN from a user who is not locked out. *)
Lemma verifyUserPin_correct_live u pin s n w :
  live w -> allowed w u n -> pin_is w u (hashPin pin s) s ->
  exists w',
    verifyUserPin u pin w
    = (Ok (VerifyResult.mk true false MAX_PIN_ATTEMPTS None None), w')
    /\ live w' /\ no_lockout w' u
    /\ same_except [getLockoutSecretName u] w w'.
Proof.
  intros Hw Ha Hp.
  pose proof (names_apart_allowed _ _ _ _ _ Hp Ha) as Hnames.
  destruct (getLockoutStatus_allowed u n w Hw Ha)
    as (w1 & Hs & Hw1 & Hn & Hc1 & Hf1 & Hk1 & Hsame & Htick & Hreads).
  pose proof (same_except_pin _ _ _ _ _ _ Hf1 (not_in_one _ _ Hnames) Hp) as Hp1.
  eexists. split.
  { rewrite (verifyUserPin_unlocked u pin w _ w1 Hs eq_refl).
    apply (pin_check_correct u pin s _ w1 Hw1 Hp1). }
  rewrite clearUserLockout_live by solve_live. simpl.
  split_and!.
  - solve_live.
  - unfold no_lockout. simpl. apply lookup_delete_eq.
  - intros name Hn'. simpl. rewrite <- (Hf1 name Hn').
    apply lookup_delete_ne. intros <-. apply Hn'. now left.
Qed.

(** No PinRecord, and not locked out. *)
Lemma verifyUserPin_no_pin_live u pin n w :
  live w -> allowed w u n -> no_pin w u ->
  exists w',
    verifyUserPin u pin w
    = (Ok (VerifyResult.mk false false MAX_PIN_ATTEMPTS None (Some "No PIN set")), w')
    /\ live w' /\ clean w' u n
    /\ same_except [getLockoutSecretName u] w w'
    /\ (clean w u n -> secrets w' = secrets w).
Proof.
  intros Hw Ha Hp.
  destruct (getLockoutStatus_allowed u n w Hw Ha)
    as (w1 & Hs & Hw1 & Hn & Hc1 & Hf1 & Hk1 & Hsame & Htick & Hreads).
  assert (no_pin w1 u) as Hp1.
  { destruct Ha as [[_ Hc]|[_ (m & t & Hl & _)]].
    - unfold no_pin. now rewrite (Hsame Hc).
    - unfold no_pin in *. rewrite Hf1; [exact Hp|].
      apply not_in_one. intros E. unfold lockout_is, stored in Hl.
      rewrite <- E, Hp in Hl. discriminate. }
  eexists. split.
  { rewrite (verifyUserPin_unlocked u pin w _ w1 Hs eq_refl).
    apply (pin_check_absent u pin _ w1 Hw1 Hp1). }
  split_and!.
  - solve_live.
  - apply (clean_frame w1); [reflexivity|exact Hc1].
  - intros name Hn'. simpl. apply (Hf1 name Hn').
  - intros Hc. simpl. apply (Hsame Hc).
Qed.

(** ** Secret store adapter and PIN credential manager *)

Lemma getSecret_found u c k v w :
  live w -> stored w (getSecretName u (category_name c) k) = Some v -> v <> "" ->
  getSecret u c k w
  = (Ok (Some v), log (GetSecret (getSecretName u (category_name c) k)) w).
Proof.
  intros Hw Hs Hv. unfold getSecret.
  destruct (getClient_live w Hw) as [cl Hc]. rewrite (bind_ok _ _ _ _ _ Hc).
  destruct (stored_Some _ _ _ Hs) as [tags Ht].
  apply try_catch_ok.
  rewrite (bind_ok _ _ _ _ _ (client_getSecret_hit _ _ w Hw Ht)). simpl.
  apply String.eqb_neq in Hv. now rewrite Hv.
Qed.

Lemma getSecret_missing u c k w :
  live w -> secrets w !! getSecretName u (category_name c) k = None ->
  getSecret u c k w = (Ok None, log (GetSecret (getSecretName u (category_name c) k)) w).
Proof.
  intros Hw Hs. unfold getSecret.
  destruct (getClient_live w Hw) as [cl Hc]. rewrite (bind_ok _ _ _ _ _ Hc).
  rewrite (try_catch_throw _ _ _ SecretNotFound
             (log (GetSecret (getSecretName u (category_name c) k)) w)); [reflexivity|].
  now apply bind_throw, client_getSecret_miss.
Qed.

Lemma saveSecret_live u c k v md w :
  live w ->
  exists w',
    saveSecret u c k v md w = (Ok tt, w')
    /\ live w'
    /\ stored w' (getSecretName u (category_name c) k) = Some v
    /\ same_except [getSecretName u (category_name c) k] w w'.
Proof.
  intros Hw. unfold saveSecret.
  destruct (getClient_live w Hw) as [cl Hc]. rewrite (bind_ok _ _ _ _ _ Hc).
  unfold bind, Date_now. rewrite client_setSecret by solve_live.
  eexists. split; [reflexivity|]. split_and!.
  - solve_live.
  - unfold stored. simpl. now rewrite lookup_insert_eq.
  - intros name Hn. simpl. apply lookup_insert_ne. intros <-. apply Hn. now left.
Qed.

Lemma saveUserPin_live u pin w :
  live w -> is_pin_format pin = true ->
  exists w',
    saveUserPin u pin w = (Ok tt, w')
    /\ live w'
    /\ no_lockout w' u
    /\ (getPinSecretName u <> getLockoutSecretName u ->
        let salt := hex (map (entropy w) (seq (drawn w) 32)) in
        pin_is w' u (hashPin pin salt) salt)
    /\ same_except [getPinSecretName u; getLockoutSecretName u] w w'.
Proof.
  intros Hw Hfmt. unfold saveUserPin.
  destruct (getClient_live w Hw) as [cl Hc]. rewrite (bind_ok _ _ _ _ _ Hc).
  rewrite Hfmt. simpl.
  unfold bind at 1. unfold randomBytes.
  unfold bind at 1. unfold call_hashPin, bind at 1, observe, ret.
  unfold bind at 1. unfold Date_now.
  unfold bind. rewrite client_setSecret by solve_live.
  rewrite clearUserLockout_live by solve_live.
  eexists. split; [reflexivity|]. split_and!.
  - solve_live.
  - unfold no_lockout. simpl. apply lookup_delete_eq.
  - intros Hne. cbv zeta. unfold pin_is, stored. simpl.
    rewrite lookup_delete_ne by (intros E; now apply Hne).
    now rewrite lookup_insert_eq.
  - intros name Hn. simpl.
    rewrite lookup_delete_ne by (intros <-; apply Hn; right; now left).
    apply lookup_insert_ne. intros <-. apply Hn. now left.
Qed.

Lemma saveUserPin_invalid u pin w :
  is_pin_format pin = false ->
  exists e w',
    saveUserPin u pin w = (Throw e, w')
    /\ secrets w' = secrets w /\ trace w' = trace w
    /\ (configured w = true -> e = Error "PIN must be 4-6 digits").
Proof.
  intros Hfmt. unfold saveUserPin, bind, getClient, configured.
  destruct (_client w) as [cl|].
  - rewrite Hfmt. simpl. eexists _, _. split; [reflexivity|]. auto.
  - destruct (vaultUrl w) as [[|a url]|].
    + eexists _, _. split; [reflexivity|]. split_and!; auto. discriminate.
    + rewrite Hfmt. simpl. eexists _, _. split; [reflexivity|]. auto.
    + eexists _, _. split; [reflexivity|]. split_and!; auto. discriminate.
Qed.

Lemma hasUserPin_absent u w :
  live w -> no_pin w u ->
  hasUserPin u w = (Ok false, log (GetSecret (getPinSecretName u)) w).
Proof.
  intros Hw Hn. unfold hasUserPin.
  destruct (getClient_live w Hw) as [cl Hc]. rewrite (bind_ok _ _ _ _ _ Hc).
  rewrite (try_catch_throw _ _ _ SecretNotFound
             (log (GetSecret (getPinSecretName u)) w)); [reflexivity|].
  now apply bind_throw, client_getSecret_miss.
Qed.

(** ** From a configured deployment to a live client *)

Lemma bind_from {A B} (m : M A) (k : A -> M B) w w0 :
  m w = m w0 -> bind m k w = bind m k w0.
Proof. unfold bind. now intros ->. Qed.

Lemma getLockoutStatus_connect u w :
  online w -> getLockoutStatus u w = getLockoutStatus u (connect w).
Proof. apply from_connect. Qed.

Lemma verifyUserPin_connect u pin w :
  online w -> verifyUserPin u pin w = verifyUserPin u pin (connect w).
Proof. intros Hw. apply bind_from, getLockoutStatus_connect, Hw. Qed.

Lemma getSecretWithPin_connect u pin c k w :
  online w -> getSecretWithPin u pin c k w = getSecretWithPin u pin c k (connect w).
Proof. intros Hw. apply bind_from, verifyUserPin_connect, Hw. Qed.

Lemma hasUserPin_connect u w :
  online w -> hasUserPin u w = hasUserPin u (connect w).
Proof. apply from_connect. Qed.

Lemma saveUserPin_connect u pin w :
  online w -> saveUserPin u pin w = saveUserPin u pin (connect w).
Proof. apply from_connect. Qed.

Lemma saveSecret_connect u c k v md w :
  online w -> saveSecret u c k v md w = saveSecret u c k v md (connect w).
Proof. apply from_connect. Qed.

Lemma connect_now w : now (connect w) = now w.
Proof.
  unfold now. destruct (connect_frame w) as (_ & -> & -> & _). reflexivity.
Qed.

Lemma connect_clean w u n : clean w u n -> clean (connect w) u n.
Proof. apply clean_frame, connect_secrets. Qed.

Lemma connect_pin_is w u h s : pin_is w u h s -> pin_is (connect w) u h s.
Proof. apply pin_is_frame, connect_secrets. Qed.

Lemma connect_lockout_is w u n l : lockout_is w u n l -> lockout_is (connect w) u n l.
Proof. unfold lockout_is. now rewrite connect_stored. Qed.

Lemma connect_allowed w u n : allowed w u n -> allowed (connect w) u n.
Proof.
  intros [[Hn Hc]|[-> (m & t & Hl & Ht)]].
  - left. split; [exact Hn|]. now apply connect_clean.
  - right. split; [reflexivity|]. exists m, t. rewrite connect_now.
    split; [now apply connect_lockout_is|exact Ht].
Qed.

Lemma clean_allowed w u n : 0 <= n < MAX_PIN_ATTEMPTS -> clean w u n -> allowed w u n.
Proof. intros Hn Hc. now left. Qed.

Lemma connect_reads_only names w w' :
  reads_only names (connect w) w' -> reads_only names w w'.
Proof.
  intros (e & E & He). exists e. split; [|exact He].
  rewrite E. destruct (connect_frame w) as (_ & _ & _ & _ & _ & ->). reflexivity.
Qed.

(** ** Properties of the specification *)

(** For every userId shorter than 119 characters and every PIN of four to
    six decimal digits, [saveUserPin] followed by [verifyUserPin] with the
    same userId and PIN returns [valid = true]. *)
Theorem setPin_then_verifyPin_short (u pin : string) (w : world) :
  online w ->
  is_pin_format pin = true ->
  (String.length u < 119)%nat ->
  exists w1 r w2,
    saveUserPin u pin w = (Ok tt, w1)
    /\ verifyUserPin u pin w1 = (Ok r, w2)
    /\ VerifyResult.valid r = true.
Proof.
  intros Hw Hfmt Hlen. pose proof (short_userId_pin_lockout_names u Hlen) as Hnames.
  rewrite saveUserPin_connect by exact Hw.
  destruct (saveUserPin_live u pin (connect w) (connect_live w Hw) Hfmt)
    as (w1 & Hsave & Hw1 & Hno & Hpin & _).
  specialize (Hpin Hnames). cbv zeta in Hpin.
  assert (allowed w1 u 0) as Ha.
  { left. split; [unfold MAX_PIN_ATTEMPTS; lia|]. now left. }
  destruct (verifyUserPin_correct_live u pin _ 0 w1 Hw1 Ha Hpin) as (w2 & Hv & _).
  eexists w1, _, w2. split; [exact Hsave|]. split; [exact Hv|]. reflexivity.
Qed.

(** C1 (the code departs from the claim).  For a userId of 119 characters
    or more the PinRecord and the LockoutRecord share one name, the first
    127 characters of the sanitised userId: the lockout reset that ends
    [saveUserPin] deletes the PinRecord just written, and [verifyUserPin]
    with the same PIN answers [valid = false], "No PIN set". *)
Theorem setPin_then_verifyPin_long (u pin : string) (w : world) :
  online w ->
  is_pin_format pin = true ->
  (119 <= String.length u)%nat ->
  exists w1 w2,
    saveUserPin u pin w = (Ok tt, w1)
    /\ verifyUserPin u pin w1
       = (Ok (VerifyResult.mk false false 3 None (Some "No PIN set")), w2).
Proof.
  intros Hw Hfmt Hlen. pose proof (long_userId_pin_lockout_names u Hlen) as Hnames.
  rewrite saveUserPin_connect by exact Hw.
  destruct (saveUserPin_live u pin (connect w) (connect_live w Hw) Hfmt)
    as (w1 & Hsave & Hw1 & Hno & _).
  assert (allowed w1 u 0) as Ha.
  { left. split; [unfold MAX_PIN_ATTEMPTS; lia|]. now left. }
  assert (no_pin w1 u) as Hp by (unfold no_pin; rewrite Hnames; exact Hno).
  destruct (verifyUserPin_no_pin_live u pin 0 w1 Hw1 Ha Hp) as (w2 & Hv & _).
  exists w1, w2. split; [exact Hsave|exact Hv].
Qed.

(** C2.  For a user with a PinRecord and a clean lockout state, three
    consecutive calls of [verifyUserPin] with wrong PINs report
    [attemptsLeft] 2, 1 and 0; the third result is locked, with
    [unlockTime] the clock reading taken when that failure is recorded plus
    fifteen minutes; and while the clock reads less than [unlockTime] a
    fourth call, whatever the PIN, is answered [locked = true] after a
    single request for the lockout record, with no key derivation run. *)
Theorem three_wrong_pins_lock (u h s p1 p2 p3 p4 : string) (w : world) :
  online w ->
  pin_is w u h s ->
  clean w u 0 ->
  hashPin p1 s <> h -> hashPin p2 s <> h -> hashPin p3 s <> h ->
  exists r1 w1 r2 w2 r3 w3,
    verifyUserPin u p1 w = (Ok r1, w1)
    /\ verifyUserPin u p2 w1 = (Ok r2, w2)
    /\ verifyUserPin u p3 w2 = (Ok r3, w3)
    /\ VerifyResult.valid r1 = false
    /\ VerifyResult.valid r2 = false
    /\ VerifyResult.valid r3 = false
    /\ VerifyResult.attemptsLeft r1 = 2
    /\ VerifyResult.attemptsLeft r2 = 1
    /\ VerifyResult.attemptsLeft r3 = 0
    /\ VerifyResult.locked r1 = false
    /\ VerifyResult.locked r2 = false
    /\ VerifyResult.locked r3 = true
    /\ VerifyResult.unlockTime r3
       = Some (Z.of_N (clock w2 (S (ticks w2))) + LOCKOUT_DURATION_MS)
    /\ forall unlock,
         VerifyResult.unlockTime r3 = Some unlock ->
         now w3 < unlock ->
         exists r4 w4,
           verifyUserPin u p4 w3 = (Ok r4, w4)
           /\ VerifyResult.valid r4 = false
           /\ VerifyResult.locked r4 = true
           /\ VerifyResult.unlockTime r4 = Some unlock
           /\ trace w4 = (trace w3 ++ [GetSecret (getLockoutSecretName u)])%list.
Proof.
  intros Hw Hp Hc H1 H2 H3.
  assert (allowed (connect w) u 0) as Ha0.
  { apply connect_allowed, clean_allowed; [unfold MAX_PIN_ATTEMPTS; lia|exact Hc]. }
  destruct (verifyUserPin_wrong_live u p1 h s 0 _ (connect_live w Hw) Ha0
              (connect_pin_is _ _ _ _ Hp) H1)
    as (n1 & w1 & Hv1 & Hw1 & Hl1 & Hk1 & Hu1 & Hs1 & Hp1 & _).
  simpl in Hu1. rewrite Hu1 in Hs1.
  assert (allowed w1 u 1) as Ha1.
  { apply clean_allowed; [unfold MAX_PIN_ATTEMPTS; lia|now right]. }
  destruct (verifyUserPin_wrong_live u p2 h s 1 w1 Hw1 Ha1 Hp1 H2)
    as (n2 & w2 & Hv2 & Hw2 & Hl2 & Hk2 & Hu2 & Hs2 & Hp2 & _).
  simpl in Hu2. rewrite Hu2 in Hs2.
  assert (allowed w2 u 2) as Ha2.
  { apply clean_allowed; [unfold MAX_PIN_ATTEMPTS; lia|now right]. }
  destruct (verifyUserPin_wrong_live u p3 h s 2 w2 Hw2 Ha2 Hp2 H3)
    as (n3 & w3 & Hv3 & Hw3 & Hl3 & Hk3 & Hu3 & Hs3 & Hp3 & _).
  simpl in Hu3.
  exists (wrong_pin n1), w1, (wrong_pin n2), w2, (wrong_pin n3), w3.
  rewrite verifyUserPin_connect by exact Hw.
  split_and!; try assumption; try reflexivity.
  intros unlock Hunlock Hnow. simpl in Hunlock. rewrite Hu3 in Hunlock.
  injection Hunlock as <-. rewrite Hu3 in Hs3.
  eexists _, _. split.
  - apply (verifyUserPin_locked_live u p4 _ _ w3 Hw3 Hs3); [|exact Hnow].
    unfold LOCKOUT_DURATION_MS. lia.
  - split_and!; reflexivity.
Qed.

(** C3.  For a user whose LockoutRecord has [lockedUntil = t], a
    timestamp after the epoch: an attempt while the clock reads less than
    [t] is answered [locked = true]; an attempt when it reads [t] or more
    has the status check delete the record and grant the full budget of 3,
    and then evaluates the PIN against the stored hash as for a user with
    no lockout record: the correct PIN is valid, a wrong PIN is the first
    failure of a fresh budget. *)
Theorem lockout_window (u pin : string) (n t : Z) (w : world) :
  online w ->
  lockout_is w u n (Some t) ->
  0 < t ->
  (now w < t ->
   exists r w',
     verifyUserPin u pin w = (Ok r, w')
     /\ VerifyResult.valid r = false
     /\ VerifyResult.locked r = true
     /\ VerifyResult.unlockTime r = Some t)
  /\ (t <= now w ->
      (exists w1,
         getLockoutStatus u w = (Ok (LockoutStatus.mk false 3 None), w1)
         /\ no_lockout w1 u
         /\ verifyUserPin u pin w = pin_check u pin (LockoutStatus.mk false 3 None) w1)
      /\ (forall s, pin_is w u (hashPin pin s) s ->
          exists w',
            verifyUserPin u pin w
            = (Ok (VerifyResult.mk true false 3 None None), w')
            /\ no_lockout w' u)
      /\ (forall h s, pin_is w u h s -> hashPin pin s <> h ->
          exists r w',
            verifyUserPin u pin w = (Ok r, w')
            /\ VerifyResult.valid r = false
            /\ VerifyResult.locked r = false
            /\ VerifyResult.attemptsLeft r = 2
            /\ lockout_is w' u 1 None)).
Proof.
  intros Hw Hl Ht.
  pose proof (connect_live w Hw) as Hlive.
  pose proof (connect_lockout_is _ _ _ _ Hl) as Hl'.
  split.
  - intros Hnow. rewrite <- connect_now in Hnow.
    rewrite verifyUserPin_connect by exact Hw.
    rewrite (verifyUserPin_locked_live u pin n t _ Hlive Hl' Ht Hnow).
    eexists _, _. split; [reflexivity|]. split_and!; reflexivity.
  - intros Hnow. rewrite <- connect_now in Hnow.
    assert (allowed (connect w) u 0) as Ha.
    { right. split; [reflexivity|]. exists n, t. split; [exact Hl'|lia]. }
    split_and!.
    + rewrite getLockoutStatus_connect by exact Hw.
      rewrite verifyUserPin_connect by exact Hw.
      assert (t <> 0) as Ht' by lia.
      assert (t <= Z.of_N (clock (connect w) (ticks (connect w)))) as Hnow' by exact Hnow.
      pose proof (getLockoutStatus_expired u n t _ Hlive Hl' Ht' Hnow') as Hs.
      eexists. split; [exact Hs|]. split.
      * unfold no_lockout. simpl. apply lookup_delete_eq.
      * apply (verifyUserPin_unlocked u pin _ _ _ Hs eq_refl).
    + intros s Hp. rewrite verifyUserPin_connect by exact Hw.
      destruct (verifyUserPin_correct_live u pin s 0 _ Hlive Ha (connect_pin_is _ _ _ _ Hp))
        as (w' & Hv & _ & Hno & _).
      exists w'. split; [exact Hv|exact Hno].
    + intros h s Hp Hne. rewrite verifyUserPin_connect by exact Hw.
      destruct (verifyUserPin_wrong_live u pin h s 0 _ Hlive Ha
                  (connect_pin_is _ _ _ _ Hp) Hne)
        as (ns & w' & Hv & _ & Hleft & Hlocked & Hunlock & Hs & _).
      simpl in Hunlock. rewrite Hunlock in Hs.
      exists (wrong_pin ns), w'. split; [exact Hv|].
      split_and!; try assumption; reflexivity.
Qed.

(** The sibling read paths do propagate: a failed request that is not a
    confirmed not-found surfaces as that very error from [getSecret],
    [hasUserPin], [getLockoutStatus] and [verifyUserPin]. *)
Lemma read_failures_propagate (u pin k : string) (c : SecretCategory)
    (e : exn) (rest : list (option exn)) (w : world) :
  is_Some (_client w) ->
  outages w = Some e :: rest ->
  is_not_found e = false ->
  fst (getSecret u c k w) = Throw e
  /\ fst (hasUserPin u w) = Throw e
  /\ fst (getLockoutStatus u w) = Throw e
  /\ fst (verifyUserPin u pin w) = Throw e.
Proof.
  intros [cl Hc] Ho He.
  unfold verifyUserPin, getSecret, hasUserPin, getLockoutStatus, bind, try_catch,
    getClient, SecretClient.getSecret, SecretClient.request, bind, throw.
  rewrite Hc. simpl. rewrite Ho. simpl. rewrite He. simpl. auto.
Qed.

(** So does the read of the PinRecord inside [verifyUserPin]. *)
Lemma pin_read_failure_propagates (u pin : string)
    (e : exn) (rest : list (option exn)) (w : world) :
  is_Some (_client w) ->
  outages w = None :: Some e :: rest ->
  no_lockout w u ->
  is_not_found e = false ->
  fst (verifyUserPin u pin w) = Throw e.
Proof.
  intros [cl Hc] Ho Hn He.
  unfold verifyUserPin, getLockoutStatus, bind, try_catch,
    getClient, SecretClient.getSecret, SecretClient.request, bind, throw.
  rewrite Hc. simpl. rewrite Ho. simpl. unfold no_lockout in Hn. rewrite Hn. simpl.
  rewrite Hc. simpl. rewrite He. reflexivity.
Qed.

(** C4 (the code departs from the claim).  When the read inside
    [recordFailedAttempt] fails, with any error at all, the failure is
    swallowed: the call succeeds, reports two attempts left and overwrites
    the LockoutRecord with a count of one, whatever count was stored. *)
Theorem recordFailedAttempt_read_failure_restarts_count
    (u : string) (e : exn) (n : Z) (w : world) :
  is_Some (_client w) ->
  outages w = [Some e] ->
  lockout_is w u n None ->
  exists w',
    recordFailedAttempt u w = (Ok (LockoutStatus.mk false 2 None), w')
    /\ lockout_is w' u 1 None.
Proof.
  intros [c Hc] Ho _.
  unfold recordFailedAttempt, bind, try_catch, getClient,
    SecretClient.getSecret, SecretClient.setSecret, SecretClient.request, bind.
  rewrite Hc. simpl. rewrite Ho. simpl.
  eexists. split; [reflexivity|].
  unfold lockout_is, stored. simpl. now rewrite lookup_insert_eq.
Qed.

(** *** PIN-gated retrieval *)

(** A user with a PinRecord who is not locked out has a short userId, so
    none of their secrets shares its name with the LockoutRecord. *)
Lemma secret_name_apart w u h s n c k :
  pin_is w u h s -> allowed w u n ->
  getSecretName u (category_name c) k <> getLockoutSecretName u.
Proof.
  intros Hp Ha.
  pose proof (names_apart_allowed _ _ _ _ _ Hp Ha) as Hnames.
  destruct (Nat.lt_ge_cases (String.length u) 119) as [Hshort|Hlong].
  - apply short_userId_secret_lockout_names. lia.
  - now apply long_userId_pin_lockout_names in Hlong.
Qed.

Lemma getSecretWithPin_found_live u pin s v c k n w :
  live w -> allowed w u n -> pin_is w u (hashPin pin s) s ->
  stored w (getSecretName u (category_name c) k) = Some v -> v <> "" ->
  exists w',
    getSecretWithPin u pin c k w = (Ok (SecretResult.mk true (Some v) None None None), w').
Proof.
  intros Hw Ha Hp Hs Hv.
  pose proof (secret_name_apart _ _ _ _ _ c k Hp Ha) as Hne.
  destruct (verifyUserPin_correct_live u pin s n w Hw Ha Hp) as (w1 & Hver & Hw1 & _ & Hf).
  unfold getSecretWithPin. rewrite (bind_ok _ _ _ _ _ Hver). simpl.
  rewrite <- (same_except_stored _ _ _ _ Hf (not_in_one _ _ Hne)) in Hs.
  rewrite (bind_ok _ _ _ _ _ (getSecret_found u c k v w1 Hw1 Hs Hv)).
  eexists. reflexivity.
Qed.

Lemma getSecretWithPin_missing_live u pin s c k n w :
  live w -> allowed w u n -> pin_is w u (hashPin pin s) s ->
  secrets w !! getSecretName u (category_name c) k = None ->
  exists w',
    getSecretWithPin u pin c k w
    = (Ok (SecretResult.mk false None (Some "Secret not found") None None), w').
Proof.
  intros Hw Ha Hp Hs.
  destruct (verifyUserPin_correct_live u pin s n w Hw Ha Hp) as (w1 & Hver & Hw1 & Hno & Hf).
  unfold getSecretWithPin. rewrite (bind_ok _ _ _ _ _ Hver). simpl.
  assert (secrets w1 !! getSecretName u (category_name c) k = None) as Hs1.
  { destruct (decide (getSecretName u (category_name c) k = getLockoutSecretName u)) as [->|Hne].
    - exact Hno.
    - now rewrite (Hf _ (not_in_one _ _ Hne)). }
  rewrite (bind_ok _ _ _ _ _ (getSecret_missing u c k w1 Hw1 Hs1)).
  eexists. reflexivity.
Qed.

(** C5 (amended).  With the correct PIN of a user who is not locked out:
    a non-empty value saved with [saveSecret] is returned by
    [getSecretWithPin] exactly, with [success = true]; and for a
    (category, key) whose derived secret name holds no secret the result is
    [success = false] with "Secret not found" and neither a [locked] nor an
    [attemptsLeft] field. *)
Theorem getSecretWithPin_correct_pin
    (u pin s v k : string) (c : SecretCategory)
    (metadata : option (gmap string string)) (n : Z) (w : world) :
  online w ->
  (exists w1,
     saveSecret u c k v metadata w = (Ok tt, w1)
     /\ (allowed w1 u n ->
         pin_is w1 u (hashPin pin s) s ->
         v <> "" ->
         exists w2,
           getSecretWithPin u pin c k w1
           = (Ok (SecretResult.mk true (Some v) None None None), w2)))
  /\ (allowed w u n ->
      pin_is w u (hashPin pin s) s ->
      secrets w !! getSecretName u (category_name c) k = None ->
      exists w2,
        getSecretWithPin u pin c k w
        = (Ok (SecretResult.mk false None (Some "Secret not found") None None), w2)).
Proof.
  intros Hw. pose proof (connect_live w Hw) as Hlive. split.
  - rewrite saveSecret_connect by exact Hw.
    destruct (saveSecret_live u c k v metadata _ Hlive) as (w1 & Hsave & Hw1 & Hs & _).
    exists w1. split; [exact Hsave|].
    intros Ha Hp Hv.
    apply (getSecretWithPin_found_live u pin s v c k n w1 Hw1 Ha Hp Hs Hv).
  - intros Ha Hp Hs. rewrite getSecretWithPin_connect by exact Hw.
    apply (getSecretWithPin_missing_live u pin s c k n _ Hlive
             (connect_allowed _ _ _ Ha) (connect_pin_is _ _ _ _ Hp)).
    now rewrite connect_secrets.
Qed.

(** C6 (amended).  Whenever [verifyUserPin] reports an invalid PIN,
    [getSecretWithPin] returns its [error], [locked] and [attemptsLeft]
    unchanged and ends in the very same world, so it sends the vault no
    request beyond those of [verifyUserPin].  For a user who is not locked
    out, with [3 - n] attempts left, a wrong PIN leaves [3 - n - 1], the
    record counts one more failure, and the only secrets read are the
    LockoutRecord and the PinRecord, neither of which is the requested
    secret.  For a user who is locked out the call reads the LockoutRecord
    and nothing else, and leaves the vault as it was. *)
Theorem getSecretWithPin_wrong_pin (u pin k : string) (c : SecretCategory) :
  (forall w r w',
     verifyUserPin u pin w = (Ok r, w') ->
     VerifyResult.valid r = false ->
     getSecretWithPin u pin c k w
     = (Ok (SecretResult.mk false None (VerifyResult.error r)
              (Some (VerifyResult.locked r)) (Some (VerifyResult.attemptsLeft r))),
        w'))
  /\ (forall h s n w,
        online w -> allowed w u n -> pin_is w u h s -> hashPin pin s <> h ->
        exists w0 r w' lockedUntil,
          getLockoutStatus u w
          = (Ok (LockoutStatus.mk false (MAX_PIN_ATTEMPTS - n) None), w0)
          /\ verifyUserPin u pin w = (Ok r, w')
          /\ getSecretWithPin u pin c k w
             = (Ok (SecretResult.mk false None (VerifyResult.error r)
                      (Some (VerifyResult.locked r))
                      (Some (MAX_PIN_ATTEMPTS - n - 1))),
                w')
          /\ lockout_is w' u (n + 1) lockedUntil
          /\ reads_only [getLockoutSecretName u; getPinSecretName u] w w'
          /\ getSecretName u (category_name c) k
             ∉ [getLockoutSecretName u; getPinSecretName u])
  /\ (forall m t w,
        online w -> lockout_is w u m (Some t) -> 0 < t -> now w < t ->
        exists w',
          getSecretWithPin u pin c k w
          = (Ok (SecretResult.mk false None
                   (Some ("Too many failed attempts. Try again after "
                          ++ toLocaleTimeString t))
                   (Some true) (Some 0)),
             w')
          /\ secrets w' = secrets w
          /\ trace w' = (trace w ++ [GetSecret (getLockoutSecretName u)])%list).
Proof.
  assert (forall w r w',
            verifyUserPin u pin w = (Ok r, w') ->
            VerifyResult.valid r = false ->
            getSecretWithPin u pin c k w
            = (Ok (SecretResult.mk false None (VerifyResult.error r)
                     (Some (VerifyResult.locked r)) (Some (VerifyResult.attemptsLeft r))),
               w')) as Hshape.
  { intros w r w' Hv Hr. unfold getSecretWithPin.
    rewrite (bind_ok _ _ _ _ _ Hv), Hr. reflexivity. }
  split; [exact Hshape|]. split.
  - intros h s n w Hw Ha Hp Hne.
    pose proof (connect_live w Hw) as Hlive.
    destruct (getLockoutStatus_allowed u n _ Hlive (connect_allowed _ _ _ Ha))
      as (w0 & Hs & _).
    destruct (verifyUserPin_wrong_live u pin h s n _ Hlive (connect_allowed _ _ _ Ha)
                (connect_pin_is _ _ _ _ Hp) Hne)
      as (ns & w' & Hv & _ & Hleft & _ & _ & Hl & _ & _ & _ & Hreads).
    rewrite <- verifyUserPin_connect in Hv by exact Hw.
    rewrite <- getLockoutStatus_connect in Hs by exact Hw.
    exists w0, (wrong_pin ns), w', (LockoutStatus.unlockTime ns).
    split_and!; try assumption.
    + rewrite (Hshape w _ w' Hv eq_refl). simpl. rewrite Hleft.
      do 4 f_equal. lia.
    + now apply connect_reads_only.
    + pose proof (names_apart_allowed _ _ _ _ _ Hp Ha) as Hnames.
      assert (String.length u < 119)%nat as Hshort.
      { destruct (Nat.lt_ge_cases (String.length u) 119) as [Hlt|Hge]; [exact Hlt|].
        now apply long_userId_pin_lockout_names in Hge. }
      intros Hin. apply elem_of_cons in Hin as [E|Hin].
      * revert E. apply short_userId_secret_lockout_names. lia.
      * apply list_elem_of_singleton in Hin. revert Hin.
        apply short_userId_secret_pin_names. lia.
  - intros m t w Hw Hl Ht Hnow.
    pose proof (connect_live w Hw) as Hlive.
    rewrite <- connect_now in Hnow.
    pose proof (verifyUserPin_locked_live u pin m t _ Hlive
                  (connect_lockout_is _ _ _ _ Hl) Ht Hnow) as Hv.
    rewrite <- verifyUserPin_connect in Hv by exact Hw.
    eexists. split; [apply (Hshape w _ _ Hv eq_refl)|].
    simpl. destruct (connect_frame w) as (-> & _ & _ & _ & _ & ->). auto.
Qed.

(** C7.  For a user in the Clean state, a verification with the correct
    PIN succeeds and leaves no LockoutRecord, and the status check that
    follows reports the full budget of 3. *)
Theorem successful_verification_resets_budget (u pin s : string) (n : Z) (w : world) :
  online w ->
  clean w u n ->
  0 <= n < MAX_PIN_ATTEMPTS ->
  pin_is w u (hashPin pin s) s ->
  exists r w' w'',
    verifyUserPin u pin w = (Ok r, w')
    /\ VerifyResult.valid r = true
    /\ no_lockout w' u
    /\ getLockoutStatus u w' = (Ok (LockoutStatus.mk false 3 None), w'').
Proof.
  intros Hw Hc Hn Hp. rewrite verifyUserPin_connect by exact Hw.
  destruct (verifyUserPin_correct_live u pin s n _ (connect_live w Hw)
              (connect_allowed _ _ _ (clean_allowed _ _ _ Hn Hc))
              (connect_pin_is _ _ _ _ Hp))
    as (w' & Hv & Hw' & Hno & _).
  eexists _, w', _. split; [exact Hv|]. split; [reflexivity|]. split; [exact Hno|].
  apply (getLockoutStatus_absent u w' Hw' Hno).
Qed.

(** C8.  For every PIN string that is not four to six decimal digits,
    [saveUserPin] throws and changes nothing in the vault: no secret is
    written or deleted and no request is sent.  In a configured deployment
    the error is "PIN must be 4-6 digits". *)
Theorem saveUserPin_rejects_bad_format (u pin : string) (w : world) :
  is_pin_format pin = false ->
  exists e w',
    saveUserPin u pin w = (Throw e, w')
    /\ secrets w' = secrets w
    /\ trace w' = trace w
    /\ (configured w = true -> e = Error "PIN must be 4-6 digits").
Proof. apply saveUserPin_invalid. Qed.

(** C9 (amended).  For a user with no PinRecord, for whom [hasUserPin]
    answers false, and who is not locked out, [verifyUserPin] returns
    [valid = false], [locked = false] and the error "No PIN set", and
    records no failure: as many attempts are used after the call as before,
    and in the Clean state the vault is left exactly as it was. *)
Theorem verifyUserPin_without_pin (u pin : string) (n : Z) (w : world) :
  online w ->
  allowed w u n ->
  no_pin w u ->
  fst (hasUserPin u w) = Ok false
  /\ exists r w',
       verifyUserPin u pin w = (Ok r, w')
       /\ VerifyResult.valid r = false
       /\ VerifyResult.locked r = false
       /\ VerifyResult.error r = Some "No PIN set"
       /\ clean w' u n
       /\ (clean w u n -> secrets w' = secrets w).
Proof.
  intros Hw Ha Hp.
  assert (no_pin (connect w) u) as Hp' by (unfold no_pin; now rewrite connect_secrets).
  split.
  { rewrite hasUserPin_connect by exact Hw.
    now rewrite (hasUserPin_absent u _ (connect_live w Hw) Hp'). }
  rewrite verifyUserPin_connect by exact Hw.
  destruct (verifyUserPin_no_pin_live u pin n _ (connect_live w Hw)
              (connect_allowed _ _ _ Ha) Hp')
    as (w' & Hv & _ & Hc & _ & Hsame).
  eexists _, w'. split; [exact Hv|]. split_and!; try reflexivity; try assumption.
  intros Hcw. rewrite (Hsame (connect_clean _ _ _ Hcw)). apply connect_secrets.
Qed.

(** C10 (amended).  [verifyUserPin] does not look at the format of the
    supplied string: for a user with a PinRecord who is not locked out,
    every string whose hash differs from the stored one, digits or not, of
    any length, is answered as a wrong PIN and uses up one attempt. *)
Theorem verifyUserPin_any_wrong_string (u pin h s : string) (n : Z) (w : world) :
  online w ->
  allowed w u n ->
  pin_is w u h s ->
  hashPin pin s <> h ->
  exists r w' lockedUntil,
    verifyUserPin u pin w = (Ok r, w')
    /\ VerifyResult.valid r = false
    /\ VerifyResult.attemptsLeft r = MAX_PIN_ATTEMPTS - (n + 1)
    /\ VerifyResult.locked r = (MAX_PIN_ATTEMPTS <=? n + 1)
    /\ VerifyResult.error r
       = Some (if MAX_PIN_ATTEMPTS <=? n + 1
               then "Too many failed attempts. Try again in 15 minutes."
               else "Incorrect PIN. " ++ pretty (MAX_PIN_ATTEMPTS - (n + 1))
                    ++ " attempts remaining.")
    /\ lockout_is w' u (n + 1) lockedUntil.
Proof.
  intros Hw Ha Hp Hne. rewrite verifyUserPin_connect by exact Hw.
  destruct (verifyUserPin_wrong_live u pin h s n _ (connect_live w Hw)
              (connect_allowed _ _ _ Ha) (connect_pin_is _ _ _ _ Hp) Hne)
    as (ns & w' & Hv & _ & Hleft & Hlocked & _ & Hl & _).
  exists (wrong_pin ns), w', (LockoutStatus.unlockTime ns).
  split_and!; try assumption; try reflexivity.
  unfold wrong_pin. simpl. now rewrite Hlocked, Hleft.
Qed.

End Proofs.

(** * The rest of the module and its callers *)

(** ** Strings *)

Lemma substring_all s : substring 0 (String.length s) s = s.
Proof. induction s as [|c s IH]; simpl; [reflexivity|]. now rewrite IH. Qed.

Lemma substring_skip a b n : substring (String.length a) n (a ++ b) = substring 0 n b.
Proof. induction a as [|c a IH]; simpl; [reflexivity|]. exact IH. Qed.

Lemma app_length_string a b :
  String.length (a ++ b) = (String.length a + String.length b)%nat.
Proof. induction a as [|c a IH]; simpl; [reflexivity|]. now rewrite IH. Qed.

Lemma slice_last_app n a b : String.length b = n -> slice_last n (a ++ b) = b.
Proof.
  intros <-. unfold slice_last. rewrite app_length_string.
  replace (String.length a + String.length b - String.length b)%nat
    with (String.length a) by lia.
  replace (String.length a + String.length b - String.length a)%nat
    with (String.length b) by lia.
  rewrite substring_skip. apply substring_all.
Qed.

Lemma slice_last_short n s : (String.length s <= n)%nat -> slice_last n s = s.
Proof.
  intros Hle. unfold slice_last.
  replace (String.length s - n)%nat with 0%nat by lia.
  rewrite Nat.sub_0_r. apply substring_all.
Qed.

Lemma split_last n s :
  (n <= String.length s)%nat -> exists a b, s = a ++ b /\ String.length b = n.
Proof.
  induction s as [|c s IH]; simpl; intros Hle.
  - exists "", "". split; [reflexivity|]. simpl. lia.
  - destruct (Nat.eq_dec n (S (String.length s))) as [->|Hne].
    + exists "", (String c s). split; reflexivity.
    + destruct IH as (a & b & -> & Hb); [lia|].
      exists (String c a), b. split; [reflexivity|exact Hb].
Qed.

Lemma string_app_assoc (a b c : string) : (a ++ b) ++ c = a ++ (b ++ c).
Proof.
  induction a as [|x a IH]; [reflexivity|].
  change (String x ((a ++ b) ++ c) = String x (a ++ (b ++ c))). now rewrite IH.
Qed.

(** The last [m] characters are among the last [n], for [m <= n]. *)
Lemma slice_last_slice_last m n s :
  (m <= n)%nat -> slice_last m (slice_last n s) = slice_last m s.
Proof.
  intros Hmn. destruct (Nat.le_gt_cases (String.length s) n) as [Hs|Hs].
  - now rewrite (slice_last_short n s Hs).
  - destruct (split_last n s) as (a & b & -> & Hb); [lia|].
    rewrite (slice_last_app n a b Hb).
    destruct (split_last m b) as (b1 & b2 & -> & Hb2); [lia|].
    rewrite (slice_last_app m b1 b2 Hb2).
    rewrite <- string_app_assoc. now rewrite (slice_last_app m (a ++ b1) b2 Hb2).
Qed.

Lemma first_char_get s s' : String.get 0 s = String.get 0 s' -> first_char s = first_char s'.
Proof. destruct s, s'; simpl; congruence. Qed.

(** ** [maskValue] *)

(** X1.  A masked value depends on the value only through its length, its
    first character and its last four characters: two values that agree on
    these get the same mask under every key. *)
Theorem maskValue_shows_ends_only (key v v' : string) :
  String.length v = String.length v' ->
  String.get 0 v = String.get 0 v' ->
  slice_last 4 v = slice_last 4 v' ->
  maskValue key v = maskValue key v'.
Proof.
  intros Hlen Hfirst Hlast. unfold maskValue. cbv zeta.
  rewrite Hlen, Hlast, (first_char_get _ _ Hfirst).
  rewrite <- (slice_last_slice_last 1 4 v), <- (slice_last_slice_last 1 4 v') by lia.
  now rewrite Hlast.
Qed.

(** X2.  Under a key that names a social security number, a bank account
    or a card, a value of exactly four characters is shown in full behind
    the mask's fixed prefix, also when the key names a PIN or a password
    as well. *)
Theorem maskValue_four_characters_in_full (key v : string) :
  shows_last_four key = true ->
  String.length v = 4%nat ->
  maskValue key v = "XXX-XX-" ++ v
  \/ maskValue key v = "****" ++ v
  \/ maskValue key v = "****-****-****-" ++ v.
Proof.
  intros Hkey Hlen. unfold maskValue, shows_last_four in *. cbv zeta in *.
  rewrite Hlen, (slice_last_short 4 v) by lia. simpl.
  destruct (includes (toLowerCase key) "ssn"), (includes (toLowerCase key) "social"),
    (includes (toLowerCase key) "account"), (includes (toLowerCase key) "routing"),
    (includes (toLowerCase key) "card"); simpl in *; try discriminate; auto.
Qed.

(** X3.  Under a key that names a password or a PIN, and neither a social
    security number, a bank account nor a card, the mask is eight stars
    whatever the value. *)
Theorem maskValue_password_hidden (key v : string) :
  names_password key = true ->
  shows_last_four key = false ->
  maskValue key v = "********".
Proof.
  unfold maskValue, names_password, shows_last_four. cbv zeta. intros Hp Hs.
  destruct (includes (toLowerCase key) "ssn"), (includes (toLowerCase key) "social"),
    (includes (toLowerCase key) "account"), (includes (toLowerCase key) "routing"),
    (includes (toLowerCase key) "card"); simpl in *; try discriminate.
  now rewrite Hp.
Qed.

(** X4.  A value of at most two characters never shows: whatever the key,
    its mask is the mask of the empty value, four or eight stars. *)
Theorem maskValue_short_value_hidden (key v : string) :
  (String.length v <= 2)%nat ->
  maskValue key v = maskValue key ""
  /\ (maskValue key v = "****" \/ maskValue key v = "********").
Proof.
  intros Hlen. unfold maskValue. cbv zeta.
  replace (4 <=? String.length v)%nat with false by (symmetry; apply Nat.leb_gt; lia).
  replace (2 <? String.length v)%nat with false by (symmetry; apply Nat.ltb_ge; lia).
  simpl.
  destruct (includes (toLowerCase key) "ssn" || includes (toLowerCase key) "social");
    [auto|].
  destruct (includes (toLowerCase key) "account" || includes (toLowerCase key) "routing");
    [auto|].
  destruct (includes (toLowerCase key) "card"); [auto|].
  destruct (includes (toLowerCase key) "password" || includes (toLowerCase key) "pin");
    auto.
Qed.

(** ** Secret names *)

Lemma sanitize_name_char c : Char.is_name_char (Char.sanitize c) = true.
Proof.
  unfold Char.sanitize. destruct (Char.is_name_char c) eqn:E; [exact E|reflexivity].
Qed.

Lemma all_name_chars_sanitized s : all_name_chars (replace_non_name_chars s) = true.
Proof.
  unfold replace_non_name_chars.
  induction s as [|c s IH]; simpl; [reflexivity|].
  now rewrite sanitize_name_char, IH.
Qed.

Lemma all_name_chars_substring n s :
  all_name_chars s = true -> all_name_chars (substring 0 n s) = true.
Proof.
  revert n. induction s as [|c s IH]; intros [|n]; simpl; try reflexivity.
  intros H. apply andb_prop in H as [-> H]. simpl. now apply IH.
Qed.

Lemma substring_length n s :
  String.length (substring 0 n s) = Nat.min n (String.length s).
Proof.
  revert n. induction s as [|c s IH]; intros [|n]; simpl; try reflexivity.
  now rewrite IH.
Qed.

Lemma derived_name_is_vault_name s :
  (1 <= String.length s)%nat ->
  is_vault_name (substring_to 127 (replace_non_name_chars (toLowerCase s))) = true.
Proof.
  intros Hlen. unfold is_vault_name, substring_to.
  rewrite substring_length.
  unfold replace_non_name_chars, toLowerCase at 1 2. rewrite !string_map_length.
  rewrite all_name_chars_substring by apply all_name_chars_sanitized.
  rewrite andb_true_r. apply andb_true_intro. split.
  - apply Nat.leb_le. lia.
  - apply Nat.leb_le. lia.
Qed.

(** X5.  Every name that the module derives, for a secret, a PinRecord or
    a LockoutRecord, has between one and 127 characters, all of them
    lower-case letters, digits or hyphens. *)
Theorem derived_names_are_vault_names (userId category key : string) :
  is_vault_name (getSecretName userId category key) = true
  /\ is_vault_name (getPinSecretName userId) = true
  /\ is_vault_name (getLockoutSecretName userId) = true.
Proof.
  unfold getSecretName, getPinSecretName, getLockoutSecretName.
  split_and!; apply derived_name_is_vault_name; rewrite !app_length_string; simpl; lia.
Qed.

Lemma sanitized_app a b : sanitized (a ++ b) = sanitized a ++ sanitized b.
Proof. unfold sanitized, replace_non_name_chars, toLowerCase. now rewrite !string_map_app. Qed.

Lemma getSecretName_sanitized u u' c k k' :
  sanitized u = sanitized u' -> sanitized k = sanitized k' ->
  getSecretName u c k = getSecretName u' c k'.
Proof.
  intros Hu Hk. unfold getSecretName.
  change (replace_non_name_chars (toLowerCase ?s)) with (sanitized s).
  rewrite !sanitized_app. now rewrite Hu, Hk.
Qed.



(** ** Secret store adapter *)

Section Adapter.

Context `{RT : Runtime} `{JL : !JSONLaws}.

(** X6.  Secrets are held under the derived name alone: a secret saved for
    one user id and key is returned by [getSecret] for every user id and
    key of the same category that are equal to them once lower-cased and
    with the characters outside [[a-z0-9-]] replaced by hyphens. *)
Theorem secrets_shared_by_sanitized_names
    (u u' k k' v : string) (c : SecretCategory)
    (metadata : option (gmap string string)) (w : world) :
  online w ->
  v <> "" ->
  sanitized u = sanitized u' ->
  sanitized k = sanitized k' ->
  exists w1 w2,
    saveSecret u c k v metadata w = (Ok tt, w1)
    /\ getSecret u' c k' w1 = (Ok (Some v), w2).
Proof.
  intros Hw Hv Hu Hk.
  rewrite saveSecret_connect by exact Hw.
  destruct (saveSecret_live u c k v metadata (connect w) (connect_live w Hw))
    as (w1 & Hsave & Hw1 & Hs & _).
  rewrite (getSecretName_sanitized u u' (category_name c) k k' Hu Hk) in Hs.
  eexists w1, _. split; [exact Hsave|].
  apply (getSecret_found u' c k' v w1 Hw1 Hs Hv).
Qed.






Lemma deleteSecret_connect u c k w :
  online w -> deleteSecret u c k w = deleteSecret u c k (connect w).
Proof. apply from_connect. Qed.

Lemma getSecret_connect u c k w :
  online w -> getSecret u c k w = getSecret u c k (connect w).
Proof. apply from_connect. Qed.

Lemma deleteSecret_live_hit u c k s w :
  live w -> secrets w !! getSecretName u (category_name c) k = Some s ->
  deleteSecret u c k w
  = (Ok tt, set_secrets (delete (getSecretName u (category_name c) k) (secrets w))
              (log (BeginDeleteSecret (getSecretName u (category_name c) k)) w)).
Proof.
  intros Hw Hs. unfold deleteSecret.
  destruct (getClient_live w Hw) as [cl Hc]. rewrite (bind_ok _ _ _ _ _ Hc).
  now apply (client_beginDeleteSecret_hit _ s).
Qed.

Lemma deleteSecret_live_miss u c k w :
  live w -> secrets w !! getSecretName u (category_name c) k = None ->
  deleteSecret u c k w
  = (Throw SecretNotFound,
     log (BeginDeleteSecret (getSecretName u (category_name c) k)) w).
Proof.
  intros Hw Hs. unfold deleteSecret.
  destruct (getClient_live w Hw) as [cl Hc]. rewrite (bind_ok _ _ _ _ _ Hc).
  now apply client_beginDeleteSecret_miss.
Qed.

(** X9.  Deleting a stored secret succeeds, removes nothing else, and a
    following [getSecret] for it returns null. *)
Theorem deleteSecret_then_getSecret (u k : string) (c : SecretCategory) (w : world) :
  online w ->
  is_Some (secrets w !! getSecretName u (category_name c) k) ->
  exists w1 w2,
    deleteSecret u c k w = (Ok tt, w1)
    /\ same_except [getSecretName u (category_name c) k] w w1
    /\ getSecret u c k w1 = (Ok None, w2).
Proof.
  intros Hw [s Hs].
  rewrite deleteSecret_connect by exact Hw.
  rewrite <- connect_secrets in Hs.
  rewrite (deleteSecret_live_hit u c k s (connect w) (connect_live w Hw) Hs).
  eexists _, _. split; [reflexivity|]. split.
  - intros name Hn. simpl. rewrite connect_secrets.
    apply lookup_delete_ne. intros <-. apply Hn. now left.
  - apply getSecret_missing.
    + pose proof (connect_live w Hw). solve_live.
    + simpl. apply lookup_delete_eq.
Qed.

(** X10.  Deleting a secret that is not stored is an error: [deleteSecret]
    throws the vault's [SecretNotFound] (404) to its caller and the vault
    is unchanged. *)
Theorem deleteSecret_absent_throws (u k : string) (c : SecretCategory) (w : world) :
  online w ->
  secrets w !! getSecretName u (category_name c) k = None ->
  exists w1,
    deleteSecret u c k w = (Throw SecretNotFound, w1)
    /\ secrets w1 = secrets w.
Proof.
  intros Hw Hs.
  rewrite deleteSecret_connect by exact Hw.
  rewrite <- connect_secrets in Hs.
  rewrite (deleteSecret_live_miss u c k (connect w) (connect_live w Hw) Hs).
  eexists. split; [reflexivity|]. simpl. apply connect_secrets.
Qed.



End Adapter.

(** ** The masked listing *)

Section ListingProofs.

Context `{RT : Runtime} `{PF : Platform}.

Lemma getSecret_untyped_live u c k w :
  live w ->
  getSecret_untyped u c k w
  = (Ok (match stored w (getSecretName u (template c) (template k)) with
         | Some v => if String.eqb v "" then None else Some v
         | None => None
         end),
     log (GetSecret (getSecretName u (template c) (template k))) w).
Proof.
  intros Hw. unfold getSecret_untyped, stored.
  destruct (getClient_live w Hw) as [cl Hc]. rewrite (bind_ok _ _ _ _ _ Hc).
  destruct (secrets w !! getSecretName u (template c) (template k)) as [s|] eqn:E.
  - apply try_catch_ok.
    now rewrite (bind_ok _ _ _ _ _ (client_getSecret_hit _ _ w Hw E)).
  - rewrite (try_catch_throw _ _ _ SecretNotFound
               (log (GetSecret (getSecretName u (template c) (template k))) w));
      [reflexivity|].
    now apply bind_throw, client_getSecret_miss.
Qed.

Lemma value_or_empty (v : option string) :
  default "" (match v with
              | Some v => if String.eqb v "" then None else Some v
              | None => None
              end)
  = default "" v.
Proof.
  destruct v as [v|]; [|reflexivity].
  destruct (String.eqb_spec v ""); simpl; congruence.
Qed.

Lemma visit_other u p acc w :
  belongs_to u p = false -> visit u (base64 u) (properties_of p) acc w = (Ok acc, w).
Proof. unfold visit, belongs_to. simpl. now intros ->. Qed.

Lemma visit_keyed u p e acc w :
  live w -> belongs_to u p = true -> entry_of w u p = Some e ->
  exists w',
    visit u (base64 u) (properties_of p) acc w = (Ok (acc ++ [e])%list, w')
    /\ live w' /\ secrets w' = secrets w.
Proof.
  intros Hw Hb He. unfold visit, belongs_to, entry_of in *. simpl in *. rewrite Hb.
  rewrite (bind_ok _ _ _ _ _ (getSecret_untyped_live u _ _ w Hw)).
  destruct (KeyVaultSecret.tags (snd p) !! "key") as [key|]; [|discriminate].
  injection He as <-. simpl. rewrite value_or_empty.
  eexists. split; [reflexivity|]. split; [solve_live|reflexivity].
Qed.

Lemma visit_untagged u p acc w :
  live w -> belongs_to u p = true -> KeyVaultSecret.tags (snd p) !! "key" = None ->
  exists w', visit u (base64 u) (properties_of p) acc w = (Throw TypeError, w')
             /\ live w' /\ secrets w' = secrets w.
Proof.
  intros Hw Hb Hk. unfold visit, belongs_to in *. simpl in *. rewrite Hb.
  rewrite (bind_ok _ _ _ _ _ (getSecret_untyped_live u _ _ w Hw)).
  rewrite Hk. eexists. split; [reflexivity|]. split; [solve_live|reflexivity].
Qed.

Lemma entry_of_frame w w' u p : secrets w' = secrets w -> entry_of w' u p = entry_of w u p.
Proof. unfold entry_of, stored. now intros ->. Qed.

Lemma entries_frame w w' u l : secrets w' = secrets w -> entries w' u l = entries w u l.
Proof.
  intros E. unfold entries.
  induction (filter (fun p => belongs_to u p = true) l) as [|p l' IH]; [reflexivity|].
  csimpl. now rewrite (entry_of_frame w w' u p E), IH.
Qed.

Lemma keyed_cons u p l : keyed u (p :: l) -> keyed u l.
Proof. intros H q Hq. apply H. now right. Qed.

(** The loop over a stretch of the listing in which every secret of the
    user has a [key] tag. *)
Lemma for_await_keyed u before : forall tail acc w,
  live w -> keyed u before ->
  exists w',
    live w' /\ secrets w' = secrets w
    /\ for_await u (base64 u) (map properties_of before ++ tail)%list acc w
       = for_await u (base64 u) tail (acc ++ entries w u before)%list w'.
Proof.
  induction before as [|p before IH]; intros tail acc w Hw Hk.
  - exists w. split_and!; [exact Hw|reflexivity|].
    unfold entries. simpl. now rewrite app_nil_r.
  - destruct (belongs_to u p) eqn:Hb.
    + destruct (Hk p ltac:(now left) Hb) as [key Hkey].
      assert (exists e, entry_of w u p = Some e) as [e He].
      { unfold entry_of. rewrite Hkey. eauto. }
      destruct (visit_keyed u p e acc w Hw Hb He) as (w1 & Hv & Hw1 & Hs1).
      destruct (IH tail (acc ++ [e])%list w1 Hw1 (keyed_cons _ _ _ Hk))
        as (w' & Hw' & Hs' & Hloop).
      exists w'. split_and!; [exact Hw'|congruence|].
      simpl. rewrite Hv, Hloop. f_equal.
      rewrite (entries_frame w w1 u before Hs1). unfold entries.
      rewrite filter_cons_True by exact Hb. simpl. rewrite He.
      now rewrite <- app_assoc.
    + destruct (IH tail acc w Hw (keyed_cons _ _ _ Hk)) as (w' & Hw' & Hs' & Hloop).
      exists w'. split_and!; [exact Hw'|exact Hs'|].
      simpl. rewrite (visit_other u p acc w Hb), Hloop. f_equal. f_equal.
      unfold entries. rewrite filter_cons_False; [reflexivity|].
      rewrite Hb. discriminate.
Qed.

Lemma getSecretsMasked_connect u w :
  online w -> getSecretsMasked u w = getSecretsMasked u (connect w).
Proof. apply from_connect. Qed.

Lemma listPropertiesOfSecrets_live w :
  live w ->
  listPropertiesOfSecrets w = (Ok (map properties_of (enumerate (secrets w))), w).
Proof. intros [_ Ho]. unfold listPropertiesOfSecrets. now rewrite Ho. Qed.

Lemma getSecretsMasked_live u w before rest :
  live w ->
  enumerate (secrets w) = (before ++ rest)%list ->
  keyed u before ->
  rest = []
  \/ (exists p rest', rest = p :: rest' /\ belongs_to u p = true
                      /\ KeyVaultSecret.tags (snd p) !! "key" = None) ->
  exists w',
    getSecretsMasked u w = (Ok (entries w u before), w')
    /\ live w' /\ secrets w' = secrets w.
Proof.
  intros Hw Hl Hk Hrest. unfold getSecretsMasked.
  destruct (getClient_live w Hw) as [cl Hc]. rewrite (bind_ok _ _ _ _ _ Hc).
  rewrite (listPropertiesOfSecrets_live w Hw), Hl, map_app.
  destruct (for_await_keyed u before (map properties_of rest) [] w Hw Hk)
    as (w1 & Hw1 & Hs1 & ->).
  destruct Hrest as [->|(p & rest' & -> & Hb & Hkey)]; simpl.
  - eexists. split; [reflexivity|]. split; [exact Hw1|exact Hs1].
  - destruct (visit_untagged u p (entries w u before) w1 Hw1 Hb Hkey)
      as (w2 & -> & Hw2 & Hs2).
    eexists. split; [reflexivity|].
    split; [exact Hw2|congruence].
Qed.

(** X12.  When the vault answers, the masked listing goes through the
    vault's listing in order and stops without an error at the first
    secret that carries the user's id but no [key] tag: it consists of one
    entry for each of the user's secrets listed before that one, made of
    the secret's tags and the mask of the value stored under the name
    derived from these tags; and the vault is left unchanged. *)
Theorem getSecretsMasked_stops_at_first_untagged
    (u : string) (w : world) (before rest : list (string * KeyVaultSecret.t)) :
  online w ->
  enumerate (secrets w) = (before ++ rest)%list ->
  keyed u before ->
  rest = []
  \/ (exists p rest', rest = p :: rest' /\ belongs_to u p = true
                      /\ KeyVaultSecret.tags (snd p) !! "key" = None) ->
  exists w',
    getSecretsMasked u w = (Ok (entries w u before), w')
    /\ secrets w' = secrets w.
Proof.
  intros Hw Hl Hk Hrest.
  rewrite getSecretsMasked_connect by exact Hw.
  rewrite <- (connect_secrets w) in Hl.
  destruct (getSecretsMasked_live u (connect w) before rest (connect_live w Hw) Hl Hk Hrest)
    as (w' & Hg & _ & Hs).
  exists w'. rewrite Hg, (entries_frame w (connect w) u before (connect_secrets w)).
  split; [reflexivity|]. now rewrite Hs, connect_secrets.
Qed.

Lemma getSecret_untyped_safe u c k w :
  fst (getSecret_untyped u c k w) <> Unmodelled
  /\ secrets (snd (getSecret_untyped u c k w)) = secrets w.
Proof.
  unfold getSecret_untyped, bind, try_catch, getClient, SecretClient.getSecret, bind,
    SecretClient.request, ret, throw.
  destruct (_client w) as [cl|]; [|destruct (vaultUrl w) as [[|a url]|]]; simpl;
    try (split; [discriminate|reflexivity]);
    destruct (outages w) as [|[e|] rest]; simpl;
    try destruct (secrets w !! getSecretName u (template c) (template k)); simpl;
    try destruct (is_not_found e); simpl;
    split; first [discriminate | reflexivity].
Qed.

Lemma visit_safe u b p acc w :
  fst (visit u b p acc w) <> Unmodelled /\ secrets (snd (visit u b p acc w)) = secrets w.
Proof.
  unfold visit, bind.
  destruct (bool_decide _); [|split; [discriminate|reflexivity]].
  pose proof (getSecret_untyped_safe u (SecretProperties.tags p !! "category")
                (SecretProperties.tags p !! "key") w) as [Hn Hs].
  destruct (getSecret_untyped u _ _ w) as [[v|e|] w1]; simpl in *;
    [|split; [discriminate|exact Hs]|contradiction].
  destruct (SecretProperties.tags p !! "key"); simpl; split;
    first [discriminate | exact Hs].
Qed.

Lemma for_await_safe u b listing : forall acc w,
  fst (fst (for_await u b listing acc w)) <> Unmodelled
  /\ secrets (snd (for_await u b listing acc w)) = secrets w.
Proof.
  induction listing as [|p listing IH]; intros acc w; simpl.
  - split; [discriminate|reflexivity].
  - pose proof (visit_safe u b p acc w) as [Hn Hs].
    destruct (visit u b p acc w) as [[acc'|e|] w1]; simpl in *.
    + destruct (IH acc' w1) as [Hn' Hs']. split; [exact Hn'|congruence].
    + split; [discriminate|exact Hs].
    + contradiction.
Qed.

Lemma getSecretsMasked_configured (u : string) (w : world) :
  configured w = true ->
  exists l w',
    getSecretsMasked u w = (Ok l, w')
    /\ secrets w' = secrets w
    /\ (forall e rest, outages w = Some e :: rest -> l = []).
Proof.
  intros Hc. unfold getSecretsMasked, bind.
  assert (exists cl w0, getClient w = (Ok cl, w0) /\ secrets w0 = secrets w
                        /\ outages w0 = outages w) as (cl & w0 & -> & Hs0 & Ho0).
  { unfold configured, getClient in *. destruct (_client w) as [cl|]; [now eexists _, _|].
    destruct (vaultUrl w) as [[|a url]|]; try discriminate. now eexists _, _. }
  unfold listPropertiesOfSecrets. rewrite Ho0.
  destruct (outages w) as [|[e|] rest] eqn:Ho.
  - pose proof (for_await_safe u (base64 u) (map properties_of (enumerate (secrets w0)))
                  [] w0) as [Hn Hs].
    destruct (for_await u (base64 u) _ [] w0) as [[[[]|e|] l] w1]; simpl in *;
      try contradiction; eexists _, _; (split; [reflexivity|]);
      (split; [congruence|discriminate]).
  - eexists _, _. split; [reflexivity|]. split; [exact Hs0|]. intros e' rest' [= <- <-].
    reflexivity.
  - pose proof (for_await_safe u (base64 u) (map properties_of (enumerate (secrets w0)))
                  [] (set_outages rest w0)) as [Hn Hs].
    destruct (for_await u (base64 u) _ [] (set_outages rest w0)) as [[[[]|e|] l] w1];
      simpl in *; try contradiction; eexists _, _; (split; [reflexivity|]);
      (split; [congruence|discriminate]).
Qed.

(** X13.  On a configured deployment [getSecretsMasked] returns a list
    whatever failures its requests meet, and never changes a secret; when
    the listing request itself fails, the list is empty. *)
Theorem getSecretsMasked_swallows_vault_failures (u : string) (w : world) :
  configured w = true ->
  exists l w',
    getSecretsMasked u w = (Ok l, w')
    /\ secrets w' = secrets w
    /\ (forall e rest, outages w = Some e :: rest -> l = []).
Proof. apply getSecretsMasked_configured. Qed.

End ListingProofs.

Section ListingAfterWrites.

Context `{RT : Runtime} `{JL : !JSONLaws} `{PF : Platform} `{PL : !PlatformLaws}.

Lemma enumerate_lookup (m : gmap string KeyVaultSecret.t) name s :
  (name, s) ∈ enumerate m <-> m !! name = Some s.
Proof. rewrite (enumerate_all m). apply elem_of_map_to_list. Qed.

Lemma saveSecret_record u c k v w :
  live w ->
  exists w',
    saveSecret u c k v None w = (Ok tt, w')
    /\ live w'
    /\ secrets w'
       = <[getSecretName u (category_name c) k
           := KeyVaultSecret.mk v
                {[ "userId" := base64 u;
                   "category" := category_name c;
                   "key" := k;
                   "createdAt" := toISOString (now w) ]}]> (secrets w).
Proof.
  intros Hw. unfold saveSecret.
  destruct (getClient_live w Hw) as [cl Hc]. rewrite (bind_ok _ _ _ _ _ Hc).
  unfold bind, Date_now. rewrite client_setSecret by solve_live.
  eexists. split; [reflexivity|]. split; [solve_live|]. simpl.
  now rewrite (left_id_L ∅ (∪)).
Qed.

(** X14.  A secret saved without metadata shows in the masked listing
    that follows: if every secret that carries the user's id has a [key]
    tag, the listing has an entry with the secret's category and key, the
    mask of the saved value and the time of saving. *)
Theorem saveSecret_then_getSecretsMasked
    (u k v : string) (c : SecretCategory) (w : world) :
  online w ->
  (forall name s, secrets w !! name = Some s -> belongs_to u (name, s) = true ->
                  is_Some (KeyVaultSecret.tags s !! "key")) ->
  exists w1 l w2,
    saveSecret u c k v None w = (Ok tt, w1)
    /\ getSecretsMasked u w1 = (Ok l, w2)
    /\ MaskedSecret.mk (Some (category_name c)) k (maskValue k v) (toISOString (now w))
       ∈ l.
Proof.
  intros Hw Hkeyed.
  rewrite saveSecret_connect by exact Hw.
  destruct (saveSecret_record u c k v (connect w) (connect_live w Hw))
    as (w1 & Hsave & Hw1 & Hs1).
  rewrite connect_now, connect_secrets in Hs1.
  set (name := getSecretName u (category_name c) k) in *.
  set (tags := {[ "userId" := base64 u; "category" := category_name c; "key" := k;
                  "createdAt" := toISOString (now w) ]} : gmap string string) in *.
  assert (tags !! "key" = Some k) as Tkey by (subst tags; now simplify_map_eq).
  assert (tags !! "userId" = Some (base64 u)) as Tuser by (subst tags; now simplify_map_eq).
  assert (tags !! "category" = Some (category_name c)) as Tcat
    by (subst tags; now simplify_map_eq).
  assert (tags !! "createdAt" = Some (toISOString (now w))) as Tcreated
    by (subst tags; now simplify_map_eq).
  assert (keyed u (enumerate (secrets w1))) as Hk.
  { intros [n s] Hin Hb. apply enumerate_lookup in Hin. rewrite Hs1 in Hin.
    destruct (decide (n = name)) as [->|Hne].
    - rewrite lookup_insert_eq in Hin. injection Hin as <-. simpl. eauto.
    - rewrite lookup_insert_ne in Hin by congruence. now apply (Hkeyed n s). }
  destruct (getSecretsMasked_live u w1 (enumerate (secrets w1)) [] Hw1
              (eq_sym (app_nil_r _)) Hk (or_introl eq_refl)) as (w2 & Hg & _).
  eexists w1, _, w2. split; [exact Hsave|]. split; [exact Hg|].
  unfold entries. apply list_elem_of_omap.
  exists (name, KeyVaultSecret.mk v tags). split.
  - apply list_elem_of_filter. split.
    + unfold belongs_to. simpl. now rewrite Tuser, bool_decide_eq_true.
    + apply enumerate_lookup. rewrite Hs1. apply lookup_insert_eq.
  - unfold entry_of. simpl. rewrite Tkey, Tcat, Tcreated. simpl. fold name.
    unfold stored. rewrite Hs1, lookup_insert_eq. reflexivity.
Qed.

Lemma saveUserPin_record u pin w :
  live w -> is_pin_format pin = true ->
  getPinSecretName u <> getLockoutSecretName u ->
  exists w' text created,
    saveUserPin u pin w = (Ok tt, w')
    /\ live w'
    /\ secrets w' !! getPinSecretName u
       = Some (KeyVaultSecret.mk text
                 {[ "userId" := base64 u; "type" := "pin"; "createdAt" := created ]}).
Proof.
  intros Hw Hfmt Hne. unfold saveUserPin.
  destruct (getClient_live w Hw) as [cl Hc]. rewrite (bind_ok _ _ _ _ _ Hc).
  rewrite Hfmt. simpl.
  unfold bind at 1. unfold randomBytes.
  unfold bind at 1. unfold call_hashPin, bind at 1, observe, ret.
  unfold bind at 1. unfold Date_now.
  unfold bind. rewrite client_setSecret by solve_live.
  rewrite clearUserLockout_live by solve_live.
  eexists _, _, _. split; [reflexivity|]. split; [solve_live|]. simpl.
  rewrite lookup_delete_ne by congruence. now rewrite lookup_insert_eq.
Qed.

(** X15.  The PinRecord that [saveUserPin] writes carries the user's id
    and no [key] tag, so it ends the masked listing: of the user's secrets
    only those that the vault lists before the PinRecord get an entry, the
    ones listed after it are missing. *)
Theorem pin_record_ends_the_listing (u pin : string) (w : world) :
  online w ->
  is_pin_format pin = true ->
  (String.length u < 119)%nat ->
  exists w1,
    saveUserPin u pin w = (Ok tt, w1)
    /\ forall before s after,
         enumerate (secrets w1) = (before ++ (getPinSecretName u, s) :: after)%list ->
         keyed u before ->
         exists w2, getSecretsMasked u w1 = (Ok (entries w1 u before), w2).
Proof.
  intros Hw Hfmt Hlen.
  pose proof (short_userId_pin_lockout_names u Hlen) as Hnames.
  rewrite saveUserPin_connect by exact Hw.
  destruct (saveUserPin_record u pin (connect w) (connect_live w Hw) Hfmt Hnames)
    as (w1 & text & created & Hsave & Hw1 & Hrec).
  exists w1. split; [exact Hsave|].
  intros before s after Hl Hk.
  assert (secrets w1 !! getPinSecretName u = Some s) as Hs.
  { apply enumerate_lookup. rewrite Hl. apply elem_of_app. right. now left. }
  rewrite Hrec in Hs. injection Hs as <-.
  destruct (getSecretsMasked_live u w1 before _ Hw1 Hl Hk) as (w2 & Hg & _).
  { right. eexists _, _. split; [reflexivity|]. split.
    - unfold belongs_to. simpl. apply bool_decide_eq_true. now simplify_map_eq.
    - simpl. now simplify_map_eq. }
  now exists w2.
Qed.

End ListingAfterWrites.

(** ** Route handlers *)

Lemma bind_ret {A B} (a : A) (k : A -> M B) w : bind (ret a) k w = k a w.
Proof. reflexivity. Qed.

Lemma truthy_string s : s <> "" -> truthy (Some (JStr s)) = true.
Proof. intros Hs. simpl. apply String.eqb_neq in Hs. now rewrite Hs. Qed.


Lemma category_of_name c : category_of (category_name c) = Some c.
Proof. now destruct c. Qed.

Section Routes.

Context `{RT : Runtime} `{JL : !JSONLaws} `{PF : Platform}.


(** X17.  Without a session that has a non-empty e-mail address every
    handler answers 401 and leaves the world as it is: no client is
    created and no request reaches the vault. *)
Theorem unauthenticated_requests_touch_nothing
    (session : option string) (body : option json) (category key : option string)
    (w : world) :
  signed_in session = None ->
  PinRoute.GET session w = (Ok Unauthorized, w)
  /\ PinRoute.POST session body w = (Ok Unauthorized, w)
  /\ PinRoute.PUT session body w = (Ok Unauthorized, w)
  /\ SecureInfoRoute.GET session w = (Ok Unauthorized, w)
  /\ SecureInfoRoute.POST session body w = (Ok Unauthorized, w)
  /\ SecureInfoRoute.DELETE session category key w = (Ok Unauthorized, w)
  /\ SecureInfoRoute.PUT session body w = (Ok Unauthorized, w).
Proof.
  intros Hs.
  unfold PinRoute.GET, PinRoute.POST, PinRoute.PUT, SecureInfoRoute.GET,
    SecureInfoRoute.POST, SecureInfoRoute.DELETE, SecureInfoRoute.PUT.
  rewrite Hs. split_and!; reflexivity.
Qed.

(** *** [/api/pin] *)

(** The verification branch of [PUT /api/pin]. *)
Lemma pin_PUT_verify session email ps pin w :
  signed_in session = Some email ->
  assoc "pin" ps = Some (JStr pin) -> pin <> "" ->
  truthy (assoc "category" ps) && truthy (assoc "key" ps) = false ->
  PinRoute.PUT session (Some (JObj ps)) w
  = try_catch
      (let! result := verifyUserPin email pin in
       if negb (VerifyResult.valid result) then
         ret (refused (VerifyResult.error result) (Some (VerifyResult.locked result))
                (Some (VerifyResult.attemptsLeft result)))
       else
         ret (NextResponse_json [("success", Some (JBool true));
                                 ("message", Some (JStr "PIN verified"))] 200))
      (fun _ => ret (error_response "Failed to verify PIN" 500)) w.
Proof.
  intros Hs Hpin Hne Hck. unfold PinRoute.PUT. rewrite Hs.
  unfold try_catch. unfold request_json, property.
  rewrite !bind_ret, Hpin, (truthy_string pin Hne), Hck. reflexivity.
Qed.

Lemma pin_PUT_answer session email ps pin w r w' :
  signed_in session = Some email ->
  assoc "pin" ps = Some (JStr pin) -> pin <> "" ->
  truthy (assoc "category" ps) && truthy (assoc "key" ps) = false ->
  verifyUserPin email pin w = (Ok r, w') ->
  PinRoute.PUT session (Some (JObj ps)) w
  = (Ok (if VerifyResult.valid r
         then NextResponse_json [("success", Some (JBool true));
                                 ("message", Some (JStr "PIN verified"))] 200
         else refused (VerifyResult.error r) (Some (VerifyResult.locked r))
                (Some (VerifyResult.attemptsLeft r))), w').
Proof.
  intros Hs Hpin Hne Hck Hv.
  rewrite (pin_PUT_verify session email ps pin w Hs Hpin Hne Hck).
  apply try_catch_ok. rewrite (bind_ok _ _ _ _ _ Hv).
  now destruct (VerifyResult.valid r).
Qed.

Lemma field_refused k error locked attemptsLeft :
  field k (refused error (Some locked) (Some attemptsLeft))
  = assoc k (defined_properties
               [("success", Some (JBool false)); ("error", JStr <$> error);
                ("locked", Some (JBool locked)); ("attemptsLeft", Some (JNum attemptsLeft))]).
Proof. reflexivity. Qed.

(** X18.  [PUT /api/pin] with a wrong PIN, from a user who is not locked
    out and has used [n] attempts, answers 401 while attempts remain and
    429 when this failure is the third; the body reports the failure, the
    lock and the attempts that are left, and carries no value. *)
Theorem pin_PUT_wrong_pin
    (session : option string) (email pin h s : string) (ps : list (string * json))
    (n : Z) (w : world) :
  signed_in session = Some email ->
  assoc "pin" ps = Some (JStr pin) -> pin <> "" ->
  truthy (assoc "category" ps) && truthy (assoc "key" ps) = false ->
  online w ->
  allowed w email n ->
  pin_is w email h s ->
  hashPin pin s <> h ->
  exists r w',
    PinRoute.PUT session (Some (JObj ps)) w = (Ok r, w')
    /\ Response.status r = (if MAX_PIN_ATTEMPTS <=? n + 1 then 429 else 401)
    /\ field "success" r = Some (JBool false)
    /\ field "locked" r = Some (JBool (MAX_PIN_ATTEMPTS <=? n + 1))
    /\ field "attemptsLeft" r = Some (JNum (MAX_PIN_ATTEMPTS - (n + 1)))
    /\ field "value" r = None.
Proof.
  intros Hs Hpin Hne Hck Hw Ha Hp Hwrong.
  destruct (verifyUserPin_wrong_live email pin h s n (connect w) (connect_live w Hw)
              (connect_allowed _ _ _ Ha) (connect_pin_is _ _ _ _ Hp) Hwrong)
    as (ns & w' & Hv & _ & Hleft & Hlocked & _).
  rewrite <- verifyUserPin_connect in Hv by exact Hw.
  eexists _, w'. split; [apply (pin_PUT_answer session email ps pin w _ w' Hs Hpin Hne Hck Hv)|].
  simpl. rewrite Hlocked, Hleft.
  split_and!; reflexivity.
Qed.


Lemma pin_format_not_empty pin : is_pin_format pin = true -> pin <> "".
Proof. now intros H ->. Qed.

(** The saving branch of [POST /api/pin]. *)
Lemma pin_POST_save session email ps pin w :
  signed_in session = Some email ->
  assoc "pin" ps = Some (JStr pin) -> is_pin_format pin = true ->
  PinRoute.POST session (Some (JObj ps)) w
  = try_catch
      (saveUserPin email pin ;;;
       ret (NextResponse_json [("success", Some (JBool true));
                               ("message", Some (JStr "PIN set successfully"))] 200))
      (fun error => ret (error_response (message error) 500)) w.
Proof.
  intros Hs Hpin Hfmt. unfold PinRoute.POST. rewrite Hs.
  unfold try_catch. unfold request_json, property.
  rewrite !bind_ret, Hpin, (truthy_string pin (pin_format_not_empty pin Hfmt)).
  change (negb true) with false. cbv iota. unfold as_string.
  rewrite bind_ret, Hfmt. reflexivity.
Qed.


(** X21.  [POST /api/pin] refuses a missing, empty or ill-formed PIN with
    400 before anything else happens: the world is exactly as before, no
    client is created and no request is sent. *)
Theorem pin_POST_rejects_before_the_vault
    (session : option string) (email : string) (ps : list (string * json)) (w : world) :
  signed_in session = Some email ->
  truthy (assoc "pin" ps) = false
  \/ (exists pin, assoc "pin" ps = Some (JStr pin) /\ is_pin_format pin = false) ->
  exists r,
    PinRoute.POST session (Some (JObj ps)) w = (Ok r, w)
    /\ Response.status r = 400.
Proof.
  intros Hs Hbad. unfold PinRoute.POST. rewrite Hs.
  unfold try_catch, request_json, property. rewrite !bind_ret.
  destruct (truthy (assoc "pin" ps)) eqn:Ht.
  - destruct Hbad as [|(pin & Hpin & Hfmt)]; [discriminate|].
    rewrite Hpin. unfold as_string. change (negb true) with false. cbv iota.
    rewrite bind_ret, Hfmt. eexists. split; reflexivity.
  - eexists. split; reflexivity.
Qed.

(** X22.  On a deployment without a vault URL, [POST /api/pin] with a
    well-formed PIN answers 500 and sends the text of the configuration
    error, which names the environment variable, to the client. *)
Theorem pin_POST_unconfigured
    (session : option string) (email pin : string) (ps : list (string * json))
    (w : world) :
  signed_in session = Some email ->
  assoc "pin" ps = Some (JStr pin) ->
  is_pin_format pin = true ->
  configured w = false ->
  PinRoute.POST session (Some (JObj ps)) w
  = (Ok (error_response "AZURE_KEY_VAULT_URL environment variable is not set" 500), w).
Proof.
  intros Hs Hpin Hfmt Hc.
  rewrite (pin_POST_save session email ps pin w Hs Hpin Hfmt).
  unfold try_catch, bind, saveUserPin, bind, getClient, configured in *.
  destruct (_client w); [discriminate|].
  destruct (vaultUrl w) as [[|a url]|]; try discriminate; reflexivity.
Qed.

(** *** [/api/secure-info] *)

Lemma category_name_truthy c : truthy (Some (JStr (category_name c))) = true.
Proof. now destruct c. Qed.

Lemma valid_category_name c : valid_category (Some (JStr (category_name c))) = Some c.
Proof. apply category_of_name. Qed.

(** The reading branch of [PUT /api/secure-info]. *)
Lemma secure_info_PUT_read session email ps c k w :
  signed_in session = Some email ->
  assoc "category" ps = Some (JStr (category_name c)) ->
  assoc "key" ps = Some (JStr k) -> k <> "" ->
  SecureInfoRoute.PUT session (Some (JObj ps)) w
  = try_catch
      (let! value := getSecret email c k in
       match value with
       | None => ret (error_response "Secret not found" 404)
       | Some value => ret (NextResponse_json [("value", Some (JStr value))] 200)
       end)
      (fun _ => ret (error_response "Failed to retrieve secure information" 500)) w.
Proof.
  intros Hs Hc Hk Hne. unfold SecureInfoRoute.PUT. rewrite Hs.
  unfold try_catch. unfold request_json, property.
  rewrite !bind_ret, Hc, Hk, category_name_truthy, (truthy_string k Hne),
    valid_category_name.
  reflexivity.
Qed.

(** X23.  [PUT /api/secure-info] returns a stored value unmasked to the
    signed-in user without asking for a PIN: the answer is 200 with the
    value whatever the state of the user's PinRecord and LockoutRecord,
    the only secret read is the one asked for, and the vault is
    unchanged. *)
Theorem secure_info_PUT_returns_value_without_pin
    (session : option string) (email k v : string) (c : SecretCategory)
    (ps : list (string * json)) (w : world) :
  signed_in session = Some email ->
  assoc "category" ps = Some (JStr (category_name c)) ->
  assoc "key" ps = Some (JStr k) -> k <> "" ->
  online w ->
  stored w (getSecretName email (category_name c) k) = Some v ->
  v <> "" ->
  exists w',
    SecureInfoRoute.PUT session (Some (JObj ps)) w
    = (Ok (NextResponse_json [("value", Some (JStr v))] 200), w')
    /\ secrets w' = secrets w
    /\ reads_only [getSecretName email (category_name c) k] w w'.
Proof.
  intros Hs Hc Hk Hne Hw Hv Hnv.
  rewrite <- connect_stored in Hv.
  pose proof (getSecret_found email c k v (connect w) (connect_live w Hw) Hv Hnv) as Hg.
  rewrite <- getSecret_connect in Hg by exact Hw.
  eexists. split.
  - rewrite (secure_info_PUT_read session email ps c k w Hs Hc Hk Hne).
    apply try_catch_ok. now rewrite (bind_ok _ _ _ _ _ Hg).
  - split; [apply connect_secrets|]. apply connect_reads_only.
    apply (reads_only_get _ (getSecretName email (category_name c) k));
      [apply list_elem_of_here|reflexivity].
Qed.

Lemma key_format_not_empty k : is_key_format k = true -> k <> "".
Proof. now intros H ->. Qed.

(** The saving branch of [POST /api/secure-info]. *)
Lemma secure_info_POST_save session email ps c k v w :
  signed_in session = Some email ->
  assoc "category" ps = Some (JStr (category_name c)) ->
  assoc "key" ps = Some (JStr k) -> is_key_format k = true ->
  assoc "value" ps = Some (JStr v) -> v <> "" ->
  SecureInfoRoute.POST session (Some (JObj ps)) w
  = try_catch
      (saveSecret email c k v None ;;;
       ret (NextResponse_json [("success", Some (JBool true))] 200))
      (fun _ => ret (error_response "Failed to save secure information" 500)) w.
Proof.
  intros Hs Hc Hk Hfmt Hv Hne. unfold SecureInfoRoute.POST. rewrite Hs.
  unfold try_catch. unfold request_json, property.
  rewrite !bind_ret, Hc, Hk, Hv, category_name_truthy,
    (truthy_string k (key_format_not_empty k Hfmt)), (truthy_string v Hne),
    valid_category_name.
  change (negb true || negb true || negb true) with false. cbv iota. unfold as_string.
  rewrite bind_ret, Hfmt. reflexivity.
Qed.

(** X24.  Round trip through the API: a value saved by
    [POST /api/secure-info] under a well-formed key is returned in full by
    [PUT /api/secure-info] for the same category and key. *)
Theorem secure_info_POST_then_PUT
    (session : option string) (email k v : string) (c : SecretCategory)
    (ps : list (string * json)) (w : world) :
  signed_in session = Some email ->
  assoc "category" ps = Some (JStr (category_name c)) ->
  assoc "key" ps = Some (JStr k) -> is_key_format k = true ->
  assoc "value" ps = Some (JStr v) -> v <> "" ->
  online w ->
  exists w1 w2,
    SecureInfoRoute.POST session (Some (JObj ps)) w
    = (Ok (NextResponse_json [("success", Some (JBool true))] 200), w1)
    /\ SecureInfoRoute.PUT session (Some (JObj ps)) w1
       = (Ok (NextResponse_json [("value", Some (JStr v))] 200), w2).
Proof.
  intros Hs Hc Hk Hfmt Hv Hne Hw.
  pose proof (saveSecret_live email c k v None (connect w) (connect_live w Hw))
    as (w1 & Hsave & Hw1 & Hst & _).
  rewrite <- saveSecret_connect in Hsave by exact Hw.
  eexists w1, _. split.
  - rewrite (secure_info_POST_save session email ps c k v w Hs Hc Hk Hfmt Hv Hne).
    apply try_catch_ok. now rewrite (bind_ok _ _ _ _ _ Hsave).
  - rewrite (secure_info_PUT_read session email ps c k w1 Hs Hc Hk
               (key_format_not_empty k Hfmt)).
    apply try_catch_ok.
    now rewrite (bind_ok _ _ _ _ _ (getSecret_found email c k v w1 Hw1 Hst Hne)).
Qed.

(** The deleting branch of [DELETE /api/secure-info]. *)
Lemma secure_info_DELETE_delete session email c k w :
  signed_in session = Some email -> k <> "" ->
  SecureInfoRoute.DELETE session (Some (category_name c)) (Some k) w
  = try_catch
      (deleteSecret email c k ;;;
       ret (NextResponse_json [("success", Some (JBool true))] 200))
      (fun _ => ret (error_response "Failed to delete secure information" 500)) w.
Proof.
  intros Hs Hne. unfold SecureInfoRoute.DELETE. rewrite Hs.
  assert (given (Some (category_name c)) = Some (category_name c)) as -> by now destruct c.
  assert (given (Some k) = Some k) as -> by now destruct k.
  now rewrite category_of_name.
Qed.

(** X25.  [DELETE /api/secure-info] for a secret that is not stored answers
    500, "Failed to delete secure information": the vault's 404 is
    reported as a server failure.  The vault is unchanged. *)
Theorem secure_info_DELETE_absent
    (session : option string) (email k : string) (c : SecretCategory) (w : world) :
  signed_in session = Some email ->
  k <> "" ->
  online w ->
  secrets w !! getSecretName email (category_name c) k = None ->
  exists w',
    SecureInfoRoute.DELETE session (Some (category_name c)) (Some k) w
    = (Ok (error_response "Failed to delete secure information" 500), w')
    /\ secrets w' = secrets w.
Proof.
  intros Hs Hne Hw Habsent.
  rewrite <- connect_secrets in Habsent.
  pose proof (deleteSecret_live_miss email c k (connect w) (connect_live w Hw) Habsent)
    as Hd.
  rewrite <- deleteSecret_connect in Hd by exact Hw.
  eexists. split.
  - rewrite (secure_info_DELETE_delete session email c k w Hs Hne).
    rewrite (try_catch_throw _ _ _ _ _ (bind_throw _ _ _ _ _ Hd)). reflexivity.
  - simpl. apply connect_secrets.
Qed.

(** X26.  [DELETE /api/secure-info] for a stored secret answers 200, and
    [PUT /api/secure-info] for the same category and key then answers 404,
    "Secret not found". *)
Theorem secure_info_DELETE_then_PUT
    (session : option string) (email k : string) (c : SecretCategory)
    (ps : list (string * json)) (w : world) :
  signed_in session = Some email ->
  assoc "category" ps = Some (JStr (category_name c)) ->
  assoc "key" ps = Some (JStr k) -> k <> "" ->
  online w ->
  is_Some (secrets w !! getSecretName email (category_name c) k) ->
  exists w1 w2,
    SecureInfoRoute.DELETE session (Some (category_name c)) (Some k) w
    = (Ok (NextResponse_json [("success", Some (JBool true))] 200), w1)
    /\ SecureInfoRoute.PUT session (Some (JObj ps)) w1
       = (Ok (error_response "Secret not found" 404), w2).
Proof.
  intros Hs Hc Hk Hne Hw [s Hstored].
  rewrite <- connect_secrets in Hstored.
  pose proof (deleteSecret_live_hit email c k s (connect w) (connect_live w Hw) Hstored)
    as Hd.
  rewrite <- deleteSecret_connect in Hd by exact Hw.
  eexists _, _. split.
  - rewrite (secure_info_DELETE_delete session email c k w Hs Hne).
    apply try_catch_ok. now rewrite (bind_ok _ _ _ _ _ Hd).
  - rewrite (secure_info_PUT_read session email ps c k _ Hs Hc Hk Hne).
    apply try_catch_ok.
    erewrite bind_ok; cycle 1.
    { apply getSecret_missing.
      - pose proof (connect_live w Hw). solve_live.
      - simpl. apply lookup_delete_eq. }
    reflexivity.
Qed.

(** X27.  [GET /api/secure-info] answers a signed-in user 200 with a list
    on every configured deployment, whatever failures the vault's requests
    meet, and 500 on a deployment without a vault URL. *)
Theorem secure_info_GET_status (session : option string) (email : string) (w : world) :
  signed_in session = Some email ->
  exists r w',
    SecureInfoRoute.GET session w = (Ok r, w')
    /\ Response.status r = (if configured w then 200 else 500)
    /\ (configured w = true -> exists items, field "secrets" r = Some (JArr items)).
Proof.
  intros Hs. unfold SecureInfoRoute.GET. rewrite Hs.
  destruct (configured w) eqn:Hc.
  - destruct (getSecretsMasked_configured email w Hc) as (l & w' & Hg & _).
    eexists _, w'. split.
    + apply try_catch_ok. now rewrite (bind_ok _ _ _ _ _ Hg).
    + split; [reflexivity|]. intros _. eexists. reflexivity.
  - eexists _, w. split.
    + rewrite (try_catch_throw _ _ _
                 (Error "AZURE_KEY_VAULT_URL environment variable is not set") w);
        [reflexivity|].
      apply bind_throw. unfold getSecretsMasked. apply bind_throw.
      unfold configured, getClient in *. destruct (_client w); [discriminate|].
      destruct (vaultUrl w) as [[|a url]|]; try discriminate; reflexivity.
    + split; [reflexivity|discriminate].
Qed.

End Routes.
(** ** The reference runtime satisfies the laws *)

Lemma reference_decode_encode j : Reference.decode_json (Reference.encode_json j) = j.
Proof.
  revert j. fix IH 1. intros [ | b | n | s | items | ps ]; simpl; try reflexivity.
  - f_equal. induction items as [|x xs IHxs]; simpl; [reflexivity|].
    now rewrite IH, IHxs.
  - f_equal. induction ps as [|[k v] ps IHps]; simpl; [reflexivity|].
    now rewrite IH, IHps.
Qed.

Lemma reference_of_bits p : Reference.of_bits (Reference.bits p) = Some p.
Proof. induction p; simpl; rewrite ?IHp; reflexivity. Qed.

Lemma reference_parse_stringify j : Reference.parse_text (Reference.stringify j) = Some j.
Proof.
  unfold Reference.parse_text, Reference.stringify.
  rewrite reference_of_bits, decode_encode. simpl.
  now rewrite reference_decode_encode.
Qed.

#[export] Instance reference_laws : @JSONLaws Reference.runtime.
Proof.
  split.
  - reflexivity.
  - intros. apply reference_parse_stringify.
  - intros. apply reference_parse_stringify.
Qed.

Import Reference.

(** ** Instances on the reference runtime *)

Lemma genesis_online : online genesis.
Proof. split; reflexivity. Qed.

Lemma with_pin_online : online with_pin.
Proof. split; reflexivity. Qed.

Lemma with_pin_pin_is : pin_is with_pin alice alice_hash alice_salt.
Proof. vm_compute. reflexivity. Qed.

Lemma with_pin_clean : clean with_pin alice 0.
Proof. left. split; [reflexivity|]. vm_compute. reflexivity. Qed.

Lemma with_pin_allowed : allowed with_pin alice 0.
Proof. left. split; [unfold MAX_PIN_ATTEMPTS; lia|]. apply with_pin_clean. Qed.

Lemma two_failures_online : online two_failures.
Proof. split; reflexivity. Qed.

Lemma two_failures_lockout_is : lockout_is two_failures alice 2 None.
Proof. vm_compute. reflexivity. Qed.

Lemma two_failures_pin_is : pin_is two_failures alice alice_hash alice_salt.
Proof. vm_compute. reflexivity. Qed.

Lemma locked_out_world_online : online locked_out_world.
Proof. split; reflexivity. Qed.

Lemma locked_out_world_lockout_is :
  lockout_is locked_out_world alice 3 (Some 1700000903000).
Proof. vm_compute. reflexivity. Qed.

Lemma setPin_then_verifyPin_long_witness :
  (119 <= String.length long_userId)%nat
  /\ getPinSecretName long_userId = getLockoutSecretName long_userId
  /\ exists w1 w2,
       saveUserPin long_userId "1234" genesis = (Ok tt, w1)
       /\ verifyUserPin long_userId "1234" w1
          = (Ok (VerifyResult.mk false false 3 None (Some "No PIN set")), w2).
Proof.
  split; [vm_compute; lia|]. split; [vm_compute; reflexivity|].
  apply setPin_then_verifyPin_long.
  - exact genesis_online.
  - reflexivity.
  - vm_compute. lia.
Defined.

(** A short userId, for contrast. *)
Lemma setPin_then_verifyPin_alice :
  exists w1 r w2,
    saveUserPin alice "1234" genesis = (Ok tt, w1)
    /\ verifyUserPin alice "1234" w1 = (Ok r, w2)
    /\ VerifyResult.valid r = true.
Proof.
  apply setPin_then_verifyPin_short.
  - exact genesis_online.
  - reflexivity.
  - vm_compute. lia.
Qed.

Lemma three_wrong_pins_lock_witness :
  exists r1 w1 r2 w2 r3 w3,
    verifyUserPin alice "0000" with_pin = (Ok r1, w1)
    /\ verifyUserPin alice "4321" w1 = (Ok r2, w2)
    /\ verifyUserPin alice "9999" w2 = (Ok r3, w3)
    /\ VerifyResult.attemptsLeft r1 = 2
    /\ VerifyResult.attemptsLeft r2 = 1
    /\ VerifyResult.attemptsLeft r3 = 0
    /\ VerifyResult.locked r3 = true.
Proof.
  destruct (three_wrong_pins_lock alice alice_hash alice_salt "0000" "4321" "9999" "1234"
              with_pin with_pin_online with_pin_pin_is with_pin_clean)
    as (r1 & w1 & r2 & w2 & r3 & w3 & H1 & H2 & H3 & _ & _ & _ & A1 & A2 & A3 & _ & _ & L3 & _);
    [vm_compute; discriminate ..|].
  exists r1, w1, r2, w2, r3, w3. repeat (split; [assumption|]). assumption.
Defined.

Lemma lockout_window_witness :
  (exists r w',
     verifyUserPin alice "1234" locked_out_world = (Ok r, w')
     /\ VerifyResult.locked r = true)
  /\ (exists w',
        verifyUserPin alice "1234" (an_hour_later locked_out_world)
        = (Ok (VerifyResult.mk true false 3 None None), w')
        /\ no_lockout w' alice).
Proof.
  split.
  - destruct (lockout_window alice "1234" 3 1700000903000 locked_out_world
                locked_out_world_online locked_out_world_lockout_is ltac:(lia))
      as [Hbefore _].
    destruct Hbefore as (r & w' & Hv & _ & Hl & _); [vm_compute; reflexivity|].
    exists r, w'. split; assumption.
  - assert (online (an_hour_later locked_out_world)) as Ho by (split; reflexivity).
    assert (lockout_is (an_hour_later locked_out_world) alice 3 (Some 1700000903000)) as Hl
      by (vm_compute; reflexivity).
    destruct (lockout_window alice "1234" 3 1700000903000 _ Ho Hl ltac:(lia))
      as [_ Hafter].
    destruct Hafter as (_ & Hcorrect & _); [vm_compute; discriminate|].
    apply (Hcorrect alice_salt). vm_compute. reflexivity.
Defined.

Lemma recordFailedAttempt_read_failure_restarts_count_witness :
  exists w',
    recordFailedAttempt alice (next_request_fails two_failures)
    = (Ok (LockoutStatus.mk false 2 None), w')
    /\ lockout_is w' alice 1 None.
Proof.
  apply (recordFailedAttempt_read_failure_restarts_count alice ServiceUnavailable 2).
  - vm_compute. eauto.
  - reflexivity.
  - vm_compute. reflexivity.
Defined.

(** The same slip seen from [verifyUserPin]: Alice has one attempt left,
    mistypes her PIN while the vault fails the read inside
    [recordFailedAttempt] with HTTP 503, and is told she has two attempts
    left instead of being locked out. *)
Lemma read_failure_regains_attempts :
  fst (getLockoutStatus alice two_failures) = Ok (LockoutStatus.mk false 1 None)
  /\ is_not_found ServiceUnavailable = false
  /\ fst (verifyUserPin alice "0000"
            (set_outages [None; None; Some ServiceUnavailable] two_failures))
     = Ok (VerifyResult.mk false false 2 None (Some "Incorrect PIN. 2 attempts remaining.")).
Proof. split_and!; vm_compute; reflexivity. Qed.

Lemma getSecretWithPin_correct_pin_witness :
  (exists w2,
     getSecretWithPin alice "1234" financial "iban"
       (snd (saveSecret alice financial "iban" "DE02120300000000202051" None with_pin))
     = (Ok (SecretResult.mk true (Some "DE02120300000000202051") None None None), w2))
  /\ (exists w2,
        getSecretWithPin alice "1234" medical "allergies" with_pin
        = (Ok (SecretResult.mk false None (Some "Secret not found") None None), w2)).
Proof.
  split.
  - destruct (getSecretWithPin_correct_pin alice "1234" alice_salt
                "DE02120300000000202051" "iban" financial None 0 with_pin with_pin_online)
      as [(w1 & Hsave & Hget) _].
    rewrite Hsave. simpl. apply Hget.
    + assert (w1 = snd (saveSecret alice financial "iban" "DE02120300000000202051"
                          None with_pin)) as -> by now rewrite Hsave.
      left. split; [unfold MAX_PIN_ATTEMPTS; lia|]. left.
      split; [reflexivity|]. vm_compute. reflexivity.
    + assert (w1 = snd (saveSecret alice financial "iban" "DE02120300000000202051"
                          None with_pin)) as -> by now rewrite Hsave.
      vm_compute. reflexivity.
    + discriminate.
  - destruct (getSecretWithPin_correct_pin alice "1234" alice_salt
                "" "allergies" medical None 0 with_pin with_pin_online)
      as [_ Hmissing].
    apply Hmissing.
    + exact with_pin_allowed.
    + exact with_pin_pin_is.
    + vm_compute. reflexivity.
Defined.

(** C5 fails for the empty value, which [getSecret] reads as "no secret";
    for a user who is locked out, whose correct PIN is refused; and for a
    key never saved whose derived name is that of a saved one. *)
Lemma getSecretWithPin_empty_value_or_locked :
  (fst (getSecretWithPin alice "1234" financial "iban"
          (snd (saveSecret alice financial "IBAN" "DE02120300000000202051" None with_pin)))
   = Ok (SecretResult.mk true (Some "DE02120300000000202051") None None None))
  /\ (pin_is with_pin alice (hashPin "1234" alice_salt) alice_salt
   /\ fst (saveSecret alice financial "iban" "" None with_pin) = Ok tt
   /\ fst (getSecretWithPin alice "1234" financial "iban"
             (snd (saveSecret alice financial "iban" "" None with_pin)))
      = Ok (SecretResult.mk false None (Some "Secret not found") None None))
  /\ (pin_is locked_out_world alice (hashPin "1234" alice_salt) alice_salt
      /\ fst (saveSecret alice financial "iban" "DE02120300000000202051" None
                locked_out_world) = Ok tt
      /\ fst (getSecretWithPin alice "1234" financial "iban"
                (snd (saveSecret alice financial "iban" "DE02120300000000202051" None
                        locked_out_world)))
         = Ok (SecretResult.mk false None
                 (Some "Too many failed attempts. Try again after 1700000903000")
                 (Some true) (Some 0))).
Proof. split_and!; vm_compute; reflexivity. Qed.

Lemma getSecretWithPin_wrong_pin_witness :
  exists e l w',
    getSecretWithPin alice "0000" financial "iban" with_pin
    = (Ok (SecretResult.mk false None e l (Some 2)), w')
    /\ lockout_is w' alice 1 None.
Proof.
  destruct (getSecretWithPin_wrong_pin alice "0000" "iban" financial) as (_ & Hwrong & _).
  destruct (Hwrong alice_hash alice_salt 0 with_pin with_pin_online with_pin_allowed
              with_pin_pin_is)
    as (w0 & r & w' & lockedUntil & _ & Hv & Hg & Hl & _); [vm_compute; discriminate|].
  exists (VerifyResult.error r), (Some (VerifyResult.locked r)), w'.
  split; [exact Hg|].
  assert (w' = snd (getSecretWithPin alice "0000" financial "iban" with_pin)) as ->
    by now rewrite Hg.
  vm_compute. reflexivity.
Defined.

(** C6 fails for a user who is locked out: a wrong PIN is refused before
    any comparison, and the budget, already 0, is not decremented. *)
Lemma getSecretWithPin_wrong_pin_when_locked :
  pin_is locked_out_world alice alice_hash alice_salt
  /\ hashPin "0000" alice_salt <> alice_hash
  /\ fst (getLockoutStatus alice locked_out_world)
     = Ok (LockoutStatus.mk true 0 (Some 1700000903000))
  /\ fst (getSecretWithPin alice "0000" financial "iban" locked_out_world)
     = Ok (SecretResult.mk false None
             (Some "Too many failed attempts. Try again after 1700000903000")
             (Some true) (Some 0))
  /\ secrets (snd (getSecretWithPin alice "0000" financial "iban" locked_out_world))
     = secrets locked_out_world
  /\ fst (getLockoutStatus alice
            (snd (getSecretWithPin alice "0000" financial "iban" locked_out_world)))
     = Ok (LockoutStatus.mk true 0 (Some 1700000903000)).
Proof. split_and!; vm_compute; try reflexivity. discriminate. Qed.

Lemma successful_verification_resets_budget_witness :
  exists r w' w'',
    verifyUserPin alice "1234" two_failures = (Ok r, w')
    /\ VerifyResult.valid r = true
    /\ no_lockout w' alice
    /\ getLockoutStatus alice w' = (Ok (LockoutStatus.mk false 3 None), w'').
Proof.
  apply (successful_verification_resets_budget alice "1234" alice_salt 2).
  - exact two_failures_online.
  - right. exact two_failures_lockout_is.
  - unfold MAX_PIN_ATTEMPTS. lia.
  - exact two_failures_pin_is.
Defined.

Lemma saveUserPin_rejects_bad_format_witness :
  exists w',
    saveUserPin alice "12ab" with_pin = (Throw (Error "PIN must be 4-6 digits"), w')
    /\ secrets w' = secrets with_pin
    /\ trace w' = trace with_pin.
Proof.
  destruct (saveUserPin_rejects_bad_format alice "12ab" with_pin)
    as (e & w' & Hs & Hsec & Htr & He); [reflexivity|].
  rewrite He in Hs by reflexivity.
  exists w'. split_and!; assumption.
Defined.

Lemma verifyUserPin_without_pin_witness :
  exists r w',
    verifyUserPin alice "1234" genesis = (Ok r, w')
    /\ VerifyResult.error r = Some "No PIN set"
    /\ secrets w' = secrets genesis.
Proof.
  assert (clean genesis alice 0) as Hc.
  { left. split; [reflexivity|]. vm_compute. reflexivity. }
  destruct (verifyUserPin_without_pin alice "1234" 0 genesis genesis_online)
    as (_ & r & w' & Hv & _ & _ & He & _ & Hs).
  - left. split; [unfold MAX_PIN_ATTEMPTS; lia|exact Hc].
  - vm_compute. reflexivity.
  - exists r, w'. split_and!; auto.
Defined.

(** C9 fails for a user who is locked out: with no PinRecord stored the
    lockout check still comes first and answers [locked = true]. *)
Lemma verifyUserPin_without_pin_when_locked :
  no_pin locked_without_pin alice
  /\ fst (verifyUserPin alice "1234" locked_without_pin)
     = Ok (VerifyResult.mk false true 0 (Some 1700000903000)
             (Some "Too many failed attempts. Try again after 1700000903000")).
Proof. split; vm_compute; reflexivity. Qed.

Lemma verifyUserPin_any_wrong_string_witness :
  is_pin_format "not-a-pin" = false
  /\ exists r w',
       verifyUserPin alice "not-a-pin" with_pin = (Ok r, w')
       /\ VerifyResult.valid r = false
       /\ VerifyResult.attemptsLeft r = 2
       /\ lockout_is w' alice 1 None.
Proof.
  split; [reflexivity|].
  destruct (verifyUserPin_any_wrong_string alice "not-a-pin" alice_hash alice_salt 0
              with_pin with_pin_online with_pin_allowed with_pin_pin_is)
    as (r & w' & l & Hv & Hvalid & Hleft & _ & _ & Hl); [vm_compute; discriminate|].
  exists r, w'. split_and!; try assumption.
  assert (w' = snd (verifyUserPin alice "not-a-pin" with_pin)) as -> by now rewrite Hv.
  vm_compute. reflexivity.
Defined.

(** C10 fails for a user who is locked out: the string is never hashed and
    uses up no attempt, the record still counts three failures. *)
Lemma verifyUserPin_wrong_string_when_locked :
  pin_is locked_out_world alice alice_hash alice_salt
  /\ hashPin "not-a-pin" alice_salt <> alice_hash
  /\ fst (verifyUserPin alice "not-a-pin" locked_out_world)
     = Ok (VerifyResult.mk false true 0 (Some 1700000903000)
             (Some "Too many failed attempts. Try again after 1700000903000"))
  /\ lockout_is (snd (verifyUserPin alice "not-a-pin" locked_out_world)) alice 3
       (Some 1700000903000)
  /\ trace (snd (verifyUserPin alice "not-a-pin" locked_out_world))
     = (trace locked_out_world ++ [GetSecret (getLockoutSecretName alice)])%list.
Proof. split_and!; vm_compute; try reflexivity. discriminate. Qed.

(** ** Instances of the further properties *)

#[export] Instance reference_platform_laws : @PlatformLaws ReferencePlatform.platform.
Proof. split. intros m. reflexivity. Qed.

Import ReferencePlatform Examples.

Lemma with_iban_online : online with_iban.
Proof. split; reflexivity. Qed.

Lemma with_secrets_online : online with_secrets.
Proof. split; reflexivity. Qed.

Lemma maskValue_shows_ends_only_witness :
  maskValue "iban" "DE02120300000000202051" = maskValue "iban" "DE99999999999999992051"
  /\ maskValue "iban" "DE02120300000000202051" = "D********************1".
Proof.
  split; [|reflexivity].
  apply (maskValue_shows_ends_only "iban"); reflexivity.
Defined.

Lemma maskValue_four_characters_in_full_witness :
  names_password "card_pin" = true
  /\ (maskValue "card_pin" "4821" = "XXX-XX-" ++ "4821"
      \/ maskValue "card_pin" "4821" = "****" ++ "4821"
      \/ maskValue "card_pin" "4821" = "****-****-****-" ++ "4821").
Proof.
  split; [reflexivity|].
  apply (maskValue_four_characters_in_full "card_pin" "4821"); reflexivity.
Defined.

Lemma maskValue_password_hidden_witness :
  maskValue "wifi_password" "correct horse battery staple" = "********".
Proof. apply maskValue_password_hidden; reflexivity. Defined.

Lemma maskValue_short_value_hidden_witness :
  maskValue "floor" "7b" = maskValue "floor" ""
  /\ (maskValue "floor" "7b" = "****" \/ maskValue "floor" "7b" = "********").
Proof. apply maskValue_short_value_hidden. simpl. lia. Defined.

Lemma secrets_shared_by_sanitized_names_witness :
  a_dot_b <> a_underscore_b
  /\ exists w1 w2,
       saveSecret a_dot_b financial "IBAN" "DE02120300000000202051" None genesis
       = (Ok tt, w1)
       /\ getSecret a_underscore_b financial "iban" w1
          = (Ok (Some "DE02120300000000202051"), w2).
Proof.
  split; [discriminate|].
  apply secrets_shared_by_sanitized_names.
  - exact genesis_online.
  - discriminate.
  - reflexivity.
  - reflexivity.
Defined.



Lemma deleteSecret_then_getSecret_witness :
  exists w1 w2,
    deleteSecret alice financial "iban" with_iban = (Ok tt, w1)
    /\ same_except [getSecretName alice "financial" "iban"] with_iban w1
    /\ getSecret alice financial "iban" w1 = (Ok None, w2).
Proof.
  apply (deleteSecret_then_getSecret alice "iban" financial with_iban).
  - exact with_iban_online.
  - vm_compute. eauto.
Defined.

Lemma deleteSecret_absent_throws_witness :
  exists w1,
    deleteSecret alice financial "iban" genesis = (Throw SecretNotFound, w1)
    /\ secrets w1 = secrets genesis.
Proof.
  apply (deleteSecret_absent_throws alice "iban" financial genesis).
  - exact genesis_online.
  - reflexivity.
Defined.


Lemma keyed_nil `{Runtime} u : keyed u [].
Proof. intros p Hin. now apply not_elem_of_nil in Hin. Qed.

Lemma keyed_Forall `{Runtime} u l :
  Forall (fun p => is_Some (KeyVaultSecret.tags (snd p) !! "key")) l -> keyed u l.
Proof.
  intros Hall p Hin _. induction Hall as [|q l Hq Hall IH].
  - now apply not_elem_of_nil in Hin.
  - apply elem_of_cons in Hin as [->|Hin]; auto.
Qed.

(** Without a PIN the listing shows Alice's three secrets; once she has
    set one, the PinRecord is served first and the listing is empty. *)
Lemma getSecretsMasked_stops_at_first_untagged_witness :
  (exists w',
     getSecretsMasked alice with_secrets
     = (Ok [MaskedSecret.mk (Some "medical") "insurance_card" "****-****-****-4567"
              "1700000002000";
            MaskedSecret.mk (Some "identity") "ssn" "XXX-XX-1120" "1700000001000";
            MaskedSecret.mk (Some "financial") "iban" "D********************1"
              "1700000000000"], w')
     /\ secrets w' = secrets with_secrets)
  /\ (exists w',
        getSecretsMasked alice with_secrets_and_pin = (Ok [], w')
        /\ secrets w' = secrets with_secrets_and_pin).
Proof.
  split.
  - destruct (getSecretsMasked_stops_at_first_untagged alice with_secrets
                (enumerate (secrets with_secrets)) []) as (w' & Hg & Hs).
    + exact with_secrets_online.
    + symmetry. apply app_nil_r.
    + apply keyed_Forall. vm_compute. repeat (constructor; [eauto|]). constructor.
    + now left.
    + exists w'. split; [|exact Hs]. rewrite Hg. f_equal.
  - destruct (getSecretsMasked_stops_at_first_untagged alice with_secrets_and_pin
                [] (enumerate (secrets with_secrets_and_pin))) as (w' & Hg & Hs).
    + split; reflexivity.
    + reflexivity.
    + apply keyed_nil.
    + right. eexists _, _. split; [vm_compute; reflexivity|].
      split; vm_compute; reflexivity.
    + exists w'. split; [exact Hg|exact Hs].
Defined.

Lemma getSecretsMasked_swallows_vault_failures_witness :
  exists l w',
    getSecretsMasked alice (next_request_fails with_secrets) = (Ok l, w')
    /\ secrets w' = secrets (next_request_fails with_secrets)
    /\ (forall e rest,
          outages (next_request_fails with_secrets) = Some e :: rest -> l = []).
Proof.
  apply (getSecretsMasked_swallows_vault_failures alice (next_request_fails with_secrets)).
  reflexivity.
Defined.

Lemma saveSecret_then_getSecretsMasked_witness :
  exists w1 l w2,
    saveSecret alice identity "ssn" "078-05-1120" None genesis = (Ok tt, w1)
    /\ getSecretsMasked alice w1 = (Ok l, w2)
    /\ MaskedSecret.mk (Some "identity") "ssn" "XXX-XX-1120" "1700000000000" ∈ l.
Proof.
  assert (forall name s, secrets genesis !! name = Some s ->
                         belongs_to alice (name, s) = true ->
                         is_Some (KeyVaultSecret.tags s !! "key")) as Hkeyed.
  { intros name s Hs. simpl in Hs. now rewrite lookup_empty in Hs. }
  exact (saveSecret_then_getSecretsMasked alice "ssn" "078-05-1120" identity genesis
           genesis_online Hkeyed).
Defined.

Lemma pin_record_ends_the_listing_witness :
  exists w1,
    saveUserPin alice "1234" with_secrets = (Ok tt, w1)
    /\ forall before s after,
         enumerate (secrets w1) = (before ++ (getPinSecretName alice, s) :: after)%list ->
         keyed alice before ->
         exists w2, getSecretsMasked alice w1 = (Ok (entries w1 alice before), w2).
Proof.
  apply (pin_record_ends_the_listing alice "1234" with_secrets).
  - exact with_secrets_online.
  - reflexivity.
  - simpl. lia.
Defined.

Lemma unauthenticated_requests_touch_nothing_witness :
  PinRoute.GET (Some "") with_secrets = (Ok Unauthorized, with_secrets)
  /\ PinRoute.POST (Some "") (Some (JObj [("pin", JStr "1234")])) with_secrets
     = (Ok Unauthorized, with_secrets)
  /\ PinRoute.PUT (Some "") (Some (JObj [("pin", JStr "1234")])) with_secrets
     = (Ok Unauthorized, with_secrets)
  /\ SecureInfoRoute.GET (Some "") with_secrets = (Ok Unauthorized, with_secrets)
  /\ SecureInfoRoute.POST (Some "") (Some (JObj [("pin", JStr "1234")])) with_secrets
     = (Ok Unauthorized, with_secrets)
  /\ SecureInfoRoute.DELETE (Some "") (Some "financial") (Some "iban") with_secrets
     = (Ok Unauthorized, with_secrets)
  /\ SecureInfoRoute.PUT (Some "") (Some (JObj [("pin", JStr "1234")])) with_secrets
     = (Ok Unauthorized, with_secrets).
Proof. apply unauthenticated_requests_touch_nothing. reflexivity. Defined.

Lemma pin_PUT_wrong_pin_witness :
  exists r w',
    PinRoute.PUT (Some alice) (Some (JObj [("pin", JStr "0000")])) two_failures = (Ok r, w')
    /\ Response.status r = 429
    /\ field "success" r = Some (JBool false)
    /\ field "locked" r = Some (JBool true)
    /\ field "attemptsLeft" r = Some (JNum 0)
    /\ field "value" r = None.
Proof.
  apply (pin_PUT_wrong_pin (Some alice) alice "0000" alice_hash alice_salt
           [("pin", JStr "0000")] 2 two_failures).
  - reflexivity.
  - reflexivity.
  - discriminate.
  - reflexivity.
  - exact two_failures_online.
  - left. split; [unfold MAX_PIN_ATTEMPTS; lia|]. right. exact two_failures_lockout_is.
  - exact two_failures_pin_is.
  - vm_compute. discriminate.
Defined.



Lemma pin_POST_rejects_before_the_vault_witness :
  exists r,
    PinRoute.POST (Some alice) (Some (JObj [("pin", JStr "12ab")])) genesis = (Ok r, genesis)
    /\ Response.status r = 400.
Proof.
  apply (pin_POST_rejects_before_the_vault (Some alice) alice).
  - reflexivity.
  - right. exists "12ab". split; reflexivity.
Defined.

Lemma pin_POST_unconfigured_witness :
  PinRoute.POST (Some alice) (Some (JObj [("pin", JStr "1234")])) unconfigured
  = (Ok (error_response "AZURE_KEY_VAULT_URL environment variable is not set" 500),
     unconfigured).
Proof. apply (pin_POST_unconfigured (Some alice) alice "1234"); reflexivity. Defined.

(** Alice is locked out of PIN verification and reads her IBAN in full. *)
Lemma secure_info_PUT_returns_value_without_pin_witness :
  fst (verifyUserPin alice "1234" locked_out_with_iban)
  = Ok (locked_out (Some 1700000903000))
  /\ exists w',
       SecureInfoRoute.PUT (Some alice)
         (Some (JObj [("category", JStr "financial"); ("key", JStr "iban")]))
         locked_out_with_iban
       = (Ok (NextResponse_json [("value", Some (JStr "DE02120300000000202051"))] 200), w')
       /\ secrets w' = secrets locked_out_with_iban
       /\ reads_only [getSecretName alice "financial" "iban"] locked_out_with_iban w'.
Proof.
  split; [vm_compute; reflexivity|].
  apply (secure_info_PUT_returns_value_without_pin (Some alice) alice "iban"
           "DE02120300000000202051" financial).
  - reflexivity.
  - reflexivity.
  - reflexivity.
  - discriminate.
  - split; reflexivity.
  - vm_compute. reflexivity.
  - discriminate.
Defined.

Lemma secure_info_POST_then_PUT_witness :
  exists w1 w2,
    SecureInfoRoute.POST (Some alice)
      (Some (JObj [("category", JStr "identity"); ("key", JStr "passport_no");
                   ("value", JStr "X1234567")])) genesis
    = (Ok (NextResponse_json [("success", Some (JBool true))] 200), w1)
    /\ SecureInfoRoute.PUT (Some alice)
         (Some (JObj [("category", JStr "identity"); ("key", JStr "passport_no");
                      ("value", JStr "X1234567")])) w1
       = (Ok (NextResponse_json [("value", Some (JStr "X1234567"))] 200), w2).
Proof.
  apply (secure_info_POST_then_PUT (Some alice) alice "passport_no" "X1234567" identity).
  - reflexivity.
  - reflexivity.
  - reflexivity.
  - reflexivity.
  - reflexivity.
  - discriminate.
  - exact genesis_online.
Defined.

Lemma secure_info_DELETE_absent_witness :
  exists w',
    SecureInfoRoute.DELETE (Some alice) (Some "medical") (Some "allergies") with_secrets
    = (Ok (error_response "Failed to delete secure information" 500), w')
    /\ secrets w' = secrets with_secrets.
Proof.
  apply (secure_info_DELETE_absent (Some alice) alice "allergies" medical).
  - reflexivity.
  - discriminate.
  - exact with_secrets_online.
  - vm_compute. reflexivity.
Defined.

Lemma secure_info_DELETE_then_PUT_witness :
  exists w1 w2,
    SecureInfoRoute.DELETE (Some alice) (Some "financial") (Some "iban") with_iban
    = (Ok (NextResponse_json [("success", Some (JBool true))] 200), w1)
    /\ SecureInfoRoute.PUT (Some alice)
         (Some (JObj [("category", JStr "financial"); ("key", JStr "iban")])) w1
       = (Ok (error_response "Secret not found" 404), w2).
Proof.
  apply (secure_info_DELETE_then_PUT (Some alice) alice "iban" financial).
  - reflexivity.
  - reflexivity.
  - reflexivity.
  - discriminate.
  - exact with_iban_online.
  - vm_compute. eauto.
Defined.

Lemma secure_info_GET_status_witness :
  (exists r w', SecureInfoRoute.GET (Some alice) unconfigured = (Ok r, w')
                /\ Response.status r = 500)
  /\ (exists r w',
        SecureInfoRoute.GET (Some alice) (next_request_fails with_secrets) = (Ok r, w')
        /\ Response.status r = 200).
Proof.
  split.
  - destruct (secure_info_GET_status (Some alice) alice unconfigured eq_refl)
      as (r & w' & Hg & Hst & _).
    exists r, w'. split; [exact Hg|exact Hst].
  - destruct (secure_info_GET_status (Some alice) alice (next_request_fails with_secrets)
                eq_refl) as (r & w' & Hg & Hst & _).
    exists r, w'. split; [exact Hg|exact Hst].
Defined.
